(** * Finex: the OCR extraction, verification and persistence pipeline

  A shallow embedding of the client-side receipt pipeline of the Finex
  front end:

  - the Upload page ([src/pages/Upload.tsx]): [uploadMutation],
    [verifyMutation], [handleVerifyOCR], [handleCancelVerify];
  - the verification modal ([src/components/VerifyOCRModal.tsx]);
  - the receipt detail modal ([ReceiptDetailModal]);
  - the Receipts page mutations ([src/pages/Receipts.tsx]);
  - the client receipt store ([src/store/receiptStore.ts]).

  JavaScript values are embedded dynamically (objects are finite maps from
  property names to values), because the source builds and updates its
  objects through unchecked casts, spreads and computed property names. *)

From Stdlib Require Import ZArith Ascii String List Bool Lia.
From stdpp Require Import gmap strings list fin_maps pretty.

Local Open Scope string_scope.
Local Open Scope list_scope.
Local Open Scope Z_scope.

Set Warnings "-register-all".

(* ===================================================================== *)
(** ** JavaScript values *)
(* ===================================================================== *)

Module JS.

(** A JavaScript number.  A finite number is kept as the decimal
    [m * 10^e] it was written as.  [parseFloat] below reads a decimal
    beyond the two ends of binary64 as 0 or as Infinity; between them the
    rounding to 53 bits is outside the model (nothing below does
    arithmetic on amounts or compares them: only truthiness and NaN are
    tested). *)
Inductive number :=
| NaN
| Infinity (negative : bool)
| Dec (m : Z) (e : Z).

Inductive value :=
| VUndef
| VNull
| VBool (b : bool)
| VNum (n : number)
| VStr (s : string)
| VArr (l : list value)
| VObj (o : gmap string value).

Definition num (z : Z) : value := VNum (Dec z 0).

(** [ToBoolean]: the falsy values are undefined, null, false, 0, NaN and
    the empty string. *)
Definition number_truthy (n : number) : bool :=
  match n with
  | NaN => false
  | Infinity _ => true
  | Dec m _ => negb (m =? 0)
  end.

Definition truthy (v : value) : bool :=
  match v with
  | VUndef | VNull => false
  | VBool b => b
  | VNum n => number_truthy n
  | VStr s => negb (String.eqb s "")
  | VArr _ | VObj _ => true
  end.

(** [a || b] *)
Definition js_or (a b : value) : value := if truthy a then a else b.

(** [typeof v === 'object'] *)
Definition is_object (v : value) : bool :=
  match v with
  | VNull | VArr _ | VObj _ => true
  | _ => false
  end.

(** [v.k] for a property name that is neither an array index nor
    [length].  (On undefined and null JavaScript throws; the source only
    reads properties of values it has tested truthy.) *)
Definition get (v : value) (k : string) : value :=
  match v with
  | VObj o => default VUndef (o !! k)
  | _ => VUndef
  end.

(** [k in v], for a value whose [typeof] is ['object'] and is not null. *)
Definition has (v : value) (k : string) : bool :=
  match v with
  | VObj o => bool_decide (is_Some (o !! k))
  | _ => false
  end.

(** The own properties copied by an object spread [{...v}].  Spreading
    undefined, null, a boolean or a number copies nothing; the items and
    receipts spread below are objects. *)
Definition spread (v : value) : gmap string value :=
  match v with
  | VObj o => o
  | _ => ∅
  end.

(** [{...v, [k]: x}] *)
Definition set (v : value) (k : string) (x : value) : value :=
  VObj (<[k := x]> (spread v)).

(** An object literal. *)
Definition obj (fields : list (string * value)) : value :=
  VObj (list_to_map fields).

(** [a[i] = x] on an array: in range the slot is replaced; out of range
    JavaScript extends the array (the skipped slots read as undefined). *)
Definition array_set (l : list value) (i : nat) (x : value) : list value :=
  if (i <? length l)%nat then <[i := x]> l
  else l ++ replicate (i - length l)%nat VUndef ++ [x].

(** [a.filter((x, i) => p x i)] *)
Fixpoint filter_from {A} (p : A -> nat -> bool) (i : nat) (l : list A) : list A :=
  match l with
  | [] => []
  | x :: l' =>
      if p x i then x :: filter_from p (S i) l' else filter_from p (S i) l'
  end.

Definition js_filter {A} (p : A -> nat -> bool) (l : list A) : list A :=
  filter_from p 0 l.

(** *** [parseFloat] *)

Definition is_digit (c : ascii) : bool :=
  let n := nat_of_ascii c in ((48 <=? n) && (n <=? 57))%nat.

Definition digit_val (c : ascii) : Z := Z.of_nat (nat_of_ascii c) - 48.

(** White space and line terminators (the ASCII ones). *)
Definition is_white (c : ascii) : bool :=
  let n := nat_of_ascii c in
  ((n =? 9) || (n =? 10) || (n =? 11) || (n =? 12) || (n =? 13) || (n =? 32))%nat.

Fixpoint skip_white (s : string) : string :=
  match s with
  | String c s' => if is_white c then skip_white s' else s
  | EmptyString => s
  end.

(** Reads a run of decimal digits: the accumulated value, the number of
    digits read, and the rest of the text. *)
Fixpoint read_digits (s : string) (acc : Z) (n : nat) : Z * nat * string :=
  match s with
  | String c s' =>
      if is_digit c then read_digits s' (10 * acc + digit_val c) (S n)
      else (acc, n, s)
  | EmptyString => (acc, n, s)
  end.

(** The exponent part [e[+-]digits]; it counts only when a digit follows. *)
Definition read_exponent (s : string) : Z :=
  match s with
  | String c r =>
      if (Ascii.eqb c "e" || Ascii.eqb c "E")%bool then
        let '(sg, r') :=
          match r with
          | String "+"%char r' => (1, r')
          | String "-"%char r' => (-1, r')
          | _ => (1, r)
          end in
        let '(ev, ne, _) := read_digits r' 0 0 in
        if (ne =? 0)%nat then 0 else sg * ev
      else 0
  | EmptyString => 0
  end.

(** The two ends of binary64 under round-to-nearest: a decimal
    [m * 10^e] of magnitude at most 2^-1075 is the number 0, and one of
    magnitude at least 2^1024 - 2^970 is Infinity. *)
Definition underflows (m e : Z) : bool :=
  if 0 <=? e then m =? 0 else Z.abs m * 2 ^ 1075 <=? 10 ^ (- e).

Definition overflows (m e : Z) : bool :=
  if 0 <=? e then 2 ^ 1024 - 2 ^ 970 <=? Z.abs m * 10 ^ e
  else (2 ^ 1024 - 2 ^ 970) * 10 ^ (- e) <=? Z.abs m.

Definition decimal (m e : Z) : number :=
  if underflows m e then Dec 0 0
  else if overflows m e then Infinity false
  else Dec m e.

(** The longest prefix that is an unsigned [StrDecimalLiteral]. *)
Definition parse_unsigned (s : string) : number :=
  if String.prefix "Infinity" s then Infinity false
  else
    let '(ip, ni, r1) := read_digits s 0 0 in
    let '(m, nf, r2) :=
      match r1 with
      | String "."%char r => read_digits r ip 0
      | _ => (ip, 0%nat, r1)
      end in
    if (ni + nf =? 0)%nat then NaN
    else decimal m (read_exponent r2 - Z.of_nat nf).

Definition negate (n : number) : number :=
  match n with
  | NaN => NaN
  | Infinity b => Infinity (negb b)
  | Dec m e => Dec (- m) e
  end.

Definition parseFloat (s : string) : number :=
  match skip_white s with
  | String "+"%char r => parse_unsigned r
  | String "-"%char r => negate (parse_unsigned r)
  | t => parse_unsigned t
  end.

(** *** [Date.prototype.toISOString] *)

(** The [w] low decimal digits of [n], most significant first. *)
Fixpoint pad (w : nat) (n : Z) : string :=
  match w with
  | O => ""
  | S w' =>
      pad w' (n / 10) +:+ String (ascii_of_nat (48 + Z.to_nat (n mod 10))) ""
  end.

(** Proleptic Gregorian date of a day number counted from 1970-01-01. *)
Definition civil_from_days (z : Z) : Z * Z * Z :=
  let z := z + 719468 in
  let era := z / 146097 in
  let doe := z - era * 146097 in
  let yoe := (doe - doe / 1460 + doe / 36524 - doe / 146096) / 365 in
  let doy := doe - (365 * yoe + yoe / 4 - yoe / 100) in
  let mp := (5 * doy + 2) / 153 in
  let d := doy - (153 * mp + 2) / 5 + 1 in
  let m := if mp <? 10 then mp + 3 else mp - 9 in
  let y := yoe + era * 400 + (if m <=? 2 then 1 else 0) in
  (y, m, d).

Definition iso_year (y : Z) : string :=
  if (0 <=? y) && (y <=? 9999) then pad 4 y
  else (if y <? 0 then "-" else "+") +:+ pad 6 (Z.abs y).

(** The calendar date of the UTC day that contains the instant [ms]
    (milliseconds since the epoch), as [YYYY-MM-DD]. *)
Definition utc_date (ms : Z) : string :=
  let '(y, m, d) := civil_from_days (ms / 86400000) in
  iso_year y +:+ "-" +:+ pad 2 m +:+ "-" +:+ pad 2 d.

(** The UTC time of day at the instant [ms], as [HH:mm:ss.sss]. *)
Definition utc_time (ms : Z) : string :=
  let t := ms mod 86400000 in
  pad 2 (t / 3600000) +:+ ":" +:+ pad 2 (t / 60000 mod 60) +:+ ":"
    +:+ pad 2 (t / 1000 mod 60) +:+ "." +:+ pad 3 (t mod 1000).

(** [new Date(ms).toISOString()]: [YYYY-MM-DDTHH:mm:ss.sssZ], in UTC. *)
Definition toISOString (ms : Z) : string :=
  utc_date ms +:+ "T" +:+ utc_time ms +:+ "Z".

(** [s.split(c)[0]]: the text before the first occurrence of [c]. *)
Fixpoint split_head (c : ascii) (s : string) : string :=
  match s with
  | String a s' => if Ascii.eqb a c then "" else String a (split_head c s')
  | EmptyString => ""
  end.

(** The text [s] does not contain the character [c]. *)
Fixpoint lacks (c : ascii) (s : string) : Prop :=
  match s with
  | String a s' => a <> c /\ lacks c s'
  | EmptyString => True
  end.

End JS.
Import JS.

(* ===================================================================== *)
(** ** The query cache (TanStack Query, as the pages use it) *)
(* ===================================================================== *)

Module QueryCache.

(** A cached query: its key and whether it is marked as invalidated. *)
Record query := { queryKey : list string; isInvalidated : bool }.

Definition invalidate (q : query) : query :=
  {| queryKey := queryKey q; isInvalidated := true |}.

(** [queryClient.invalidateQueries({ queryKey: k })]: every query whose
    key begins with [k] is marked.  This is the cache as the call leaves
    it; what the library does afterwards (it fetches the marked queries
    that are in use again and clears their mark, and it adds and drops
    queries as components mount and unmount) is outside the model. *)
Definition invalidateQueries (k : list string) (cache : list query) : list query :=
  map (fun q => if bool_decide (k `prefix_of` queryKey q) then invalidate q else q)
      cache.

End QueryCache.
Import QueryCache.

(* ===================================================================== *)
(** ** The Upload page *)
(* ===================================================================== *)

Module Upload.

Inductive toast := Success (msg : string) | Error (msg : string).

(** The state of the Upload page, of the [VerifyOCRModal] it renders and
    of its [verifyMutation], with the effects it has had on the outside:
    the bodies posted to [/receipts/verify], the query cache, the toasts. *)
Record page := {
  files : list string;
  uploadedCount : nat;
  verifyModalOpen : bool;
  pendingOCRData : option value;
  isUploading : bool;
  editMode : bool;
  editedData : value;
  verifyPending : bool;
  posted : list value;
  cache : list query;
  toasts : list toast
}.

Definition setFiles (x : list string) (s : page) : page :=
  {| files := x; uploadedCount := uploadedCount s;
     verifyModalOpen := verifyModalOpen s; pendingOCRData := pendingOCRData s;
     isUploading := isUploading s; editMode := editMode s;
     editedData := editedData s; verifyPending := verifyPending s;
     posted := posted s; cache := cache s; toasts := toasts s |}.

Definition setUploadedCount (x : nat) (s : page) : page :=
  {| files := files s; uploadedCount := x;
     verifyModalOpen := verifyModalOpen s; pendingOCRData := pendingOCRData s;
     isUploading := isUploading s; editMode := editMode s;
     editedData := editedData s; verifyPending := verifyPending s;
     posted := posted s; cache := cache s; toasts := toasts s |}.

Definition setVerifyModalOpen (x : bool) (s : page) : page :=
  {| files := files s; uploadedCount := uploadedCount s;
     verifyModalOpen := x; pendingOCRData := pendingOCRData s;
     isUploading := isUploading s; editMode := editMode s;
     editedData := editedData s; verifyPending := verifyPending s;
     posted := posted s; cache := cache s; toasts := toasts s |}.

Definition setIsUploading (x : bool) (s : page) : page :=
  {| files := files s; uploadedCount := uploadedCount s;
     verifyModalOpen := verifyModalOpen s; pendingOCRData := pendingOCRData s;
     isUploading := x; editMode := editMode s;
     editedData := editedData s; verifyPending := verifyPending s;
     posted := posted s; cache := cache s; toasts := toasts s |}.

Definition setEditMode (x : bool) (s : page) : page :=
  {| files := files s; uploadedCount := uploadedCount s;
     verifyModalOpen := verifyModalOpen s; pendingOCRData := pendingOCRData s;
     isUploading := isUploading s; editMode := x;
     editedData := editedData s; verifyPending := verifyPending s;
     posted := posted s; cache := cache s; toasts := toasts s |}.

Definition setEditedData (f : value -> value) (s : page) : page :=
  {| files := files s; uploadedCount := uploadedCount s;
     verifyModalOpen := verifyModalOpen s; pendingOCRData := pendingOCRData s;
     isUploading := isUploading s; editMode := editMode s;
     editedData := f (editedData s); verifyPending := verifyPending s;
     posted := posted s; cache := cache s; toasts := toasts s |}.

Definition setVerifyPending (x : bool) (s : page) : page :=
  {| files := files s; uploadedCount := uploadedCount s;
     verifyModalOpen := verifyModalOpen s; pendingOCRData := pendingOCRData s;
     isUploading := isUploading s; editMode := editMode s;
     editedData := editedData s; verifyPending := x;
     posted := posted s; cache := cache s; toasts := toasts s |}.

Definition post (body : value) (s : page) : page :=
  {| files := files s; uploadedCount := uploadedCount s;
     verifyModalOpen := verifyModalOpen s; pendingOCRData := pendingOCRData s;
     isUploading := isUploading s; editMode := editMode s;
     editedData := editedData s; verifyPending := verifyPending s;
     posted := posted s ++ [body]; cache := cache s; toasts := toasts s |}.

Definition invalidateKey (k : list string) (s : page) : page :=
  {| files := files s; uploadedCount := uploadedCount s;
     verifyModalOpen := verifyModalOpen s; pendingOCRData := pendingOCRData s;
     isUploading := isUploading s; editMode := editMode s;
     editedData := editedData s; verifyPending := verifyPending s;
     posted := posted s; cache := invalidateQueries k (cache s);
     toasts := toasts s |}.

Definition addToast (t : toast) (s : page) : page :=
  {| files := files s; uploadedCount := uploadedCount s;
     verifyModalOpen := verifyModalOpen s; pendingOCRData := pendingOCRData s;
     isUploading := isUploading s; editMode := editMode s;
     editedData := editedData s; verifyPending := verifyPending s;
     posted := posted s; cache := cache s; toasts := toasts s ++ [t] |}.

(** The [data] prop the page passes to the modal:
    [pendingOCRData || { storeName: '', ..., ocrStatus: 'pending' }]. *)
Definition placeholder : value :=
  obj [ ("storeName", VStr ""); ("date", VStr ""); ("totalAmount", num 0);
        ("taxAmount", num 0); ("items", VArr []); ("ocrStatus", VStr "pending") ].

Definition dataProp (p : option value) : value := default placeholder p.

Definition data (s : page) : value := dataProp (pendingOCRData s).

(** [setPendingOCRData(p)]; the modal's effect on its [data] prop then
    copies the new [data] into [editedData]. *)
Definition setPendingOCRData (p : option value) (s : page) : page :=
  {| files := files s; uploadedCount := uploadedCount s;
     verifyModalOpen := verifyModalOpen s; pendingOCRData := p;
     isUploading := isUploading s; editMode := editMode s;
     editedData := dataProp p; verifyPending := verifyPending s;
     posted := posted s; cache := cache s; toasts := toasts s |}.

(** *** The Extraction Normalizer ([uploadMutation.onSuccess]) *)

(** [new Date().toISOString().split('T')[0]] at the instant [now]
    (milliseconds since the epoch). *)
Definition today (now : Z) : string := split_head "T"%char (toISOString now).

(** The object handed to [setPendingOCRData]. *)
Definition normalize (now : Z) (firstFile ocrData : value) : value :=
  obj [ ("storeName", js_or (get ocrData "storeName") (VStr ""));
        ("date", js_or (get ocrData "date") (VStr (today now)));
        ("totalAmount", js_or (get ocrData "totalAmount") (num 0));
        ("taxAmount", js_or (get ocrData "taxAmount") (num 0));
        ("items", js_or (get ocrData "items") (VArr []));
        ("ocrStatus", js_or (get ocrData "ocrStatus") (VStr "success"));
        ("ocrMessage", js_or (get ocrData "ocrMessage") (VStr ""));
        ("imageUrl", js_or (get firstFile "imageUrl") (VStr ""));
        ("receiptId", js_or (get firstFile "id") (VStr "")) ].

(** The extraction result carries no usable field [k]. *)
Definition missing (ocrData : value) (k : string) : Prop := get ocrData k = VUndef.

(** [firstFile && typeof firstFile === 'object' && 'ocrData' in firstFile
    && firstFile.ocrData] *)
Definition hasOcrData (firstFile : value) : bool :=
  truthy firstFile && is_object firstFile && has firstFile "ocrData"
    && truthy (get firstFile "ocrData").

Definition count_message (n : nat) : string :=
  "Successfully uploaded " +:+ pretty n +:+ " receipts!".

(** [uploadMutation.onError] *)
Definition uploadOnError (s : page) : page :=
  setIsUploading false (addToast (Error "Failed to upload receipts") s).

(** ['ocrData' in firstFile] is defined: the right operand of [in] is an
    object (an array is one); on undefined, null, a boolean, a number or
    a string the operator throws. *)
Definition in_operand (firstFile : value) : bool :=
  match firstFile with
  | VArr _ | VObj _ => true
  | _ => false
  end.

(** [uploadMutation.onSuccess].  The log line before the test of the
    first file evaluates ['ocrData' in firstFile]; when that throws,
    nothing of [onSuccess] has changed the page yet, and the mutation
    calls [onError] with the exception. *)
Definition uploadOnSuccess (now : Z) (uploadedFiles : list value) (s : page) : page :=
  match uploadedFiles with
  | firstFile :: _ =>
      if negb (in_operand firstFile) then uploadOnError s
      else
        setIsUploading false
          (if hasOcrData firstFile then
             setUploadedCount (length uploadedFiles)
               (setVerifyModalOpen true
                  (setPendingOCRData
                     (Some (normalize now firstFile (get firstFile "ocrData"))) s))
           else
             setUploadedCount (length uploadedFiles)
               (setFiles []
                  (invalidateKey ["receipt-stats"]
                     (invalidateKey ["receipts"]
                        (addToast (Success (count_message (length uploadedFiles)))
                           s)))))
  | [] => setIsUploading false s
  end.

(** *** [verifyMutation] *)

(** [verifyMutation.mutate(verifiedData)]: the mutation function posts
    [verifiedData] to [/receipts/verify] ([receiptApi.verifyOCRReceipt]
    sends its argument as the request body). *)
Definition handleVerifyOCR (verifiedData : value) (s : page) : page :=
  setVerifyPending true (post verifiedData s).

Definition verifyOnSuccess (s : page) : page :=
  setVerifyPending false
    (setUploadedCount 1
       (invalidateKey ["receipt-stats"]
          (invalidateKey ["receipts"]
             (setPendingOCRData None
                (setFiles []
                   (setVerifyModalOpen false
                      (addToast
                         (Success "Receipt verified and saved to database successfully!")
                         s))))))).

Definition verifyOnError (s : page) : page :=
  setVerifyPending false
    (addToast (Error "Failed to verify and save receipt") s).

Definition handleCancelVerify (s : page) : page :=
  setPendingOCRData None (setVerifyModalOpen false s).

End Upload.
Import Upload.

(* ===================================================================== *)
(** ** The verification modal: handlers and controls *)
(* ===================================================================== *)

Module VerifyOCRModal.

(** The rows of [editedData.items]: the elements of an array, and none
    for anything else.  The handlers below are those of the source for a
    draft whose items is an array; on another value the source throws
    ([...items] of a non-iterable, [items.filter]) or spreads a string
    into its characters.  The controls that call them are rendered only
    from an array (see [enabled]). *)
Definition items_of (d : value) : list value :=
  match get d "items" with
  | VArr l => l
  | _ => []
  end.

(** The handlers, as the state updates they apply to [editedData].  Each
    user event is handled, and the modal rendered again, before the next
    one, so the [editedData] a handler closes over is the state it
    updates. *)

Definition handleInputChange (field : string) (v : value) (prev : value) : value :=
  set prev field v.

Definition handleItemChange (index : nat) (field : string) (v : value)
    (prev : value) : value :=
  let newItems := items_of prev in
  let newItems :=
    array_set newItems index (set (default VUndef (newItems !! index)) field v) in
  set prev "items" (VArr newItems).

Definition handleDeleteItem (index : nat) (prev : value) : value :=
  let newItems := js_filter (fun _ i => negb (i =? index)%nat) (items_of prev) in
  set prev "items" (VArr newItems).

Definition newItem : value :=
  obj [ ("name", VStr ""); ("quantity", num 1); ("price", num 0);
        ("total", num 0); ("category", VStr "Other") ].

Definition handleAddItem (prev : value) : value :=
  set prev "items" (VArr (items_of prev ++ [newItem])).

(** [handleConfirm]: [onConfirm(editedData); setEditMode(false)], where
    [onConfirm] is the page's [handleVerifyOCR]. *)
Definition handleConfirm (s : page) : page :=
  setEditMode false (handleVerifyOCR (editedData s) s).

(** [data.ocrStatus === 'error'] *)
Definition statusIsError (s : page) : bool :=
  match get (data s) "ocrStatus" with
  | VStr st => String.eqb st "error"
  | _ => false
  end.

(** What the user can do to the rendered modal. *)
Inductive event :=
| ClickCancel             (* backdrop, the X of the header, Cancel *)
| ClickEdit
| ClickEditAndAddItems
| ClickVerifyAndSave
| ClickCancelEdit
| ClickSaveChangesAndVerify
| ClickAddItem
| ClickDeleteItem (idx : nat)
| ChangeStoreName (text : string)
| ChangeDate (text : string)
| ChangeTotal (text : string)
| ChangeTax (text : string)
| ChangeItemName (idx : nat) (text : string)
| ChangeItemQty (idx : nat) (text : string)
| ChangeItemPrice (idx : nat) (text : string)
| ChangeItemCategory (idx : nat) (text : string).

Definition inRange (idx : nat) (s : page) : bool :=
  (idx <? length (items_of (editedData s)))%nat.

(** [editedData.items.length > 0 && ... editedData.items.map(...)]: the
    block of item rows, rendered from a non-empty array.  (A non-empty
    string passes the test on its length and has no [map]: the render
    throws and offers nothing at all, so [enabled] below is then above
    what is offered.) *)
Definition hasRows (s : page) : bool :=
  (0 <? length (items_of (editedData s)))%nat.

(** [editedData.items.length === 0]: the block shown in place of the
    rows.  The [length] of a string is its number of characters; of
    anything else but an array or a string it is undefined. *)
Definition noItems (s : page) : bool :=
  match get (editedData s) "items" with
  | VArr [] | VStr "" => true
  | _ => false
  end.

(** Which controls the render offers: nothing while the modal is closed;
    inputs are read-only, and the item buttons absent, outside edit mode;
    there is one row of controls per item of [editedData.items]; Add Item
    is in both item blocks, Edit & Add Items in the second; Edit and
    Verify & Save carry the [disabled] conditions of the footer. *)
Definition enabled (s : page) (e : event) : bool :=
  verifyModalOpen s &&
  match e with
  | ClickCancel => true
  | ClickEdit => negb (editMode s) && negb (statusIsError s)
  | ClickEditAndAddItems => negb (editMode s) && noItems s
  | ClickVerifyAndSave =>
      negb (editMode s) && negb (verifyPending s || statusIsError s)
  | ClickCancelEdit => editMode s
  | ClickSaveChangesAndVerify => editMode s && negb (verifyPending s)
  | ClickAddItem => editMode s && (hasRows s || noItems s)
  | ClickDeleteItem idx => editMode s && inRange idx s
  | ChangeStoreName _ | ChangeDate _ | ChangeTotal _ | ChangeTax _ => editMode s
  | ChangeItemName idx _ | ChangeItemQty idx _ | ChangeItemPrice idx _
  | ChangeItemCategory idx _ => editMode s && inRange idx s
  end.

(** The handler each control is wired to. *)
Definition handle (e : event) (s : page) : page :=
  match e with
  | ClickCancel => handleCancelVerify s
  | ClickEdit | ClickEditAndAddItems => setEditMode true s
  | ClickVerifyAndSave | ClickSaveChangesAndVerify => handleConfirm s
  | ClickCancelEdit => setEditedData (fun _ => data s) (setEditMode false s)
  | ClickAddItem => setEditedData handleAddItem s
  | ClickDeleteItem idx => setEditedData (handleDeleteItem idx) s
  | ChangeStoreName text =>
      setEditedData (handleInputChange "storeName" (VStr text)) s
  | ChangeDate text => setEditedData (handleInputChange "date" (VStr text)) s
  | ChangeTotal text =>
      setEditedData
        (handleInputChange "totalAmount" (js_or (VNum (parseFloat text)) (num 0))) s
  | ChangeTax text =>
      setEditedData
        (handleInputChange "taxAmount" (js_or (VNum (parseFloat text)) (num 0))) s
  | ChangeItemName idx text =>
      setEditedData (handleItemChange idx "name" (VStr text)) s
  | ChangeItemQty idx text =>
      setEditedData
        (handleItemChange idx "quantity" (js_or (VNum (parseFloat text)) (num 1))) s
  | ChangeItemPrice idx text =>
      setEditedData
        (handleItemChange idx "price" (js_or (VNum (parseFloat text)) (num 0))) s
  | ChangeItemCategory idx text =>
      setEditedData (handleItemChange idx "category" (VStr text)) s
  end.

(** A user event happens only on a control that is offered. *)
Inductive step : page -> event -> page -> Prop :=
| step_event s e : enabled s e = true -> step s e (handle e s).

(** The item operations of the staging form. *)
Inductive item_op :=
| SetItemField (index : nat) (field : string) (v : value)
| RemoveItem (index : nat)
| AddItem.

Definition apply_op (op : item_op) (d : value) : value :=
  match op with
  | SetItemField i f v => handleItemChange i f v d
  | RemoveItem i => handleDeleteItem i d
  | AddItem => handleAddItem d
  end.

(** The index an operation is given names a row of the rendered list. *)
Definition in_bounds (op : item_op) (d : value) : Prop :=
  match op with
  | SetItemField i _ _ | RemoveItem i => (i < length (items_of d))%nat
  | AddItem => True
  end.

Fixpoint run (ops : list item_op) (d : value) : value :=
  match ops with
  | [] => d
  | op :: ops' => run ops' (apply_op op d)
  end.

Fixpoint valid (ops : list item_op) (d : value) : Prop :=
  match ops with
  | [] => True
  | op :: ops' => in_bounds op d /\ valid ops' (apply_op op d)
  end.

Definition is_add (op : item_op) : bool :=
  match op with AddItem => true | _ => false end.

Definition is_remove (op : item_op) : bool :=
  match op with RemoveItem _ => true | _ => false end.

Definition adds (ops : list item_op) : nat := length (List.filter is_add ops).

Definition removes (ops : list item_op) : nat :=
  length (List.filter is_remove ops).

(** The item operation a user event performs, if it is one. *)
Definition op_of_event (e : event) : option item_op :=
  match e with
  | ClickAddItem => Some AddItem
  | ClickDeleteItem idx => Some (RemoveItem idx)
  | ChangeItemName idx text => Some (SetItemField idx "name" (VStr text))
  | ChangeItemQty idx text =>
      Some (SetItemField idx "quantity" (js_or (VNum (parseFloat text)) (num 1)))
  | ChangeItemPrice idx text =>
      Some (SetItemField idx "price" (js_or (VNum (parseFloat text)) (num 0)))
  | ChangeItemCategory idx text => Some (SetItemField idx "category" (VStr text))
  | _ => None
  end.

(** A run of item operations on the modal: each operation is the one
    performed by a user event on a control that is offered. *)
Inductive item_steps : page -> list item_op -> page -> Prop :=
| item_steps_nil s : item_steps s [] s
| item_steps_cons s e op s' ops s'' :
    step s e s' -> op_of_event e = Some op -> item_steps s' ops s'' ->
    item_steps s (op :: ops) s''.

End VerifyOCRModal.
Import VerifyOCRModal.

(* ===================================================================== *)
(** ** An upload session after the upload has succeeded *)
(* ===================================================================== *)

Module Session.

(** What can happen next: the user acts on the modal, or the pending
    commit request settles. *)
Inductive action :=
| User (e : event)
| CommitSucceeded
| CommitFailed.

Definition act (a : action) (s : page) : page :=
  match a with
  | User e => handle e s
  | CommitSucceeded => verifyOnSuccess s
  | CommitFailed => verifyOnError s
  end.

Fixpoint exec (tr : list action) (s : page) : page :=
  match tr with
  | [] => s
  | a :: tr' => exec tr' (act a s)
  end.

End Session.
Import Session.

(* ===================================================================== *)
(** ** The receipt detail modal (editing a persisted receipt) *)
(* ===================================================================== *)

Module ReceiptDetailModal.

(** [editedReceipt?.items || []] *)
Definition items_of (r : option value) : list value :=
  match r with
  | Some d => match js_or (get d "items") (VArr []) with VArr l => l | _ => [] end
  | None => []
  end.

(** The handlers act on [editedReceipt : ReceiptData | null]; a null
    state is left as it is. *)
Definition handleInputChange (field : string) (v : value)
    (prev : option value) : option value :=
  (fun p => set p field v) <$> prev.

Definition handleItemChange (index : nat) (field : string) (v : value)
    (prev : option value) : option value :=
  let newItems := items_of prev in
  let newItems :=
    array_set newItems index (set (default VUndef (newItems !! index)) field v) in
  (fun p => set p "items" (VArr newItems)) <$> prev.

Definition handleDeleteItem (index : nat) (prev : option value) : option value :=
  let newItems := js_filter (fun _ i => negb (i =? index)%nat) (items_of prev) in
  (fun p => set p "items" (VArr newItems)) <$> prev.

(** The [onChange] of the numeric inputs: the parsed text is stored as
    it is. *)
Definition changeTotalAmount (text : string) :=
  handleInputChange "totalAmount" (VNum (parseFloat text)).
Definition changeTaxAmount (text : string) :=
  handleInputChange "taxAmount" (VNum (parseFloat text)).
Definition changeItemQuantity (index : nat) (text : string) :=
  handleItemChange index "quantity" (VNum (parseFloat text)).
Definition changeItemPrice (index : nat) (text : string) :=
  handleItemChange index "price" (VNum (parseFloat text)).
Definition changeItemTotal (index : nat) (text : string) :=
  handleItemChange index "total" (VNum (parseFloat text)).

End ReceiptDetailModal.

(* ===================================================================== *)
(** ** The Receipts page: update and delete of a persisted receipt *)
(* ===================================================================== *)

Module Receipts.

Record page := {
  cache : list query;
  toasts : list Upload.toast;
  isModalOpen : bool
}.

(** [updateReceiptMutation.onSuccess] *)
Definition updateOnSuccess (s : page) : page :=
  {| cache := invalidateQueries ["receipts"] (cache s);
     toasts := toasts s ++ [Upload.Success "Receipt updated successfully"];
     isModalOpen := false |}.

(** [deleteReceiptMutation.onSuccess] *)
Definition deleteOnSuccess (s : page) : page :=
  {| cache := invalidateQueries ["receipts"] (cache s);
     toasts := toasts s ++ [Upload.Success "Receipt deleted successfully"];
     isModalOpen := false |}.

End Receipts.

(* ===================================================================== *)
(** ** The client receipt store *)
(* ===================================================================== *)

Module receiptStore.

Record store := {
  receipts : list value;
  selectedReceipt : option value;
  filters : value;
  isUploading : bool;
  uploadProgress : Z
}.

(** [set({ receipts: x })] merges the new list into the state. *)
Definition set_receipts (x : list value) (st : store) : store :=
  {| receipts := x; selectedReceipt := selectedReceipt st;
     filters := filters st; isUploading := isUploading st;
     uploadProgress := uploadProgress st |}.

(** [r.id === id], for [id] a string. *)
Definition id_is (id : string) (r : value) : bool :=
  match get r "id" with
  | VStr s => String.eqb s id
  | _ => false
  end.

(** [{ ...r, ...updates }]: a property of [updates] overrides [r]'s. *)
Definition merge (r updates : value) : value :=
  VObj (spread updates ∪ spread r).

Definition updateReceipt (id : string) (updates : value) (st : store) : store :=
  set_receipts
    (map (fun r => if id_is id r then merge r updates else r) (receipts st)) st.

Definition deleteReceipt (id : string) (st : store) : store :=
  set_receipts (List.filter (fun r => negb (id_is id r)) (receipts st)) st.

End receiptStore.

(* ===================================================================== *)
(** ** Notions taken from the specification, for comparison *)
(* ===================================================================== *)

Module Spec.

(** The specification's "current local date in ISO form": the calendar
    date at the instant [now] on a clock [offset] minutes east of UTC. *)
Definition local_date (offset now : Z) : string :=
  split_head "T"%char (toISOString (now + offset * 60000)).

(** The cached views the specification calls aggregate views of the
    receipt collection, with the pages that read them: the statistics of
    the Dashboard and of [useReceiptStats] (totals, category breakdown,
    top stores) and the analytics (merchant rankings, trend series). *)
Definition aggregate_view (q : query) : bool :=
  match queryKey q with
  | k :: _ =>
      String.eqb k "receipt-stats" || String.eqb k "receiptStats"
        || String.eqb k "analytics"
  | [] => false
  end.

(** The items of a draft, followed through a sequence of item
    operations.  A row is known by where it comes from, a row of the
    initial list or an addition, and by the field updates it has received,
    the earliest first. *)
Inductive origin :=
| Original (j : nat)
| Added (k : nat).

Record tracked := { from : origin; updates : list (string * value) }.

Definition updated (f : string) (v : value) (r : tracked) : tracked :=
  {| from := from r; updates := updates r ++ [(f, v)] |}.

(** One operation on the tracked rows and the number of additions so far:
    setItemField updates the row at the index, removeItem drops the row at
    the index, addItem puts a fresh row last. *)
Definition track_op (op : item_op) (t : list tracked * nat) : list tracked * nat :=
  match op with
  | SetItemField i f v => (alter (updated f v) i t.1, t.2)
  | RemoveItem i => (delete i t.1, t.2)
  | AddItem => (t.1 ++ [{| from := Added t.2; updates := [] |}], S t.2)
  end.

Fixpoint track (ops : list item_op) (t : list tracked * nat) : list tracked * nat :=
  match ops with
  | [] => t
  | op :: ops' => track ops' (track_op op t)
  end.

(** The rows of an initial list of [n] items, untouched. *)
Definition initial_rows (n : nat) : list tracked :=
  map (fun j => {| from := Original j; updates := [] |}) (seq 0 n).

(** The rows that are left after [ops] of an initial list of [n] items. *)
Definition rows_after (ops : list item_op) (n : nat) : list tracked :=
  (track ops (initial_rows n, 0%nat)).1.

(** The item a tracked row stands for: the item it comes from (of the
    initial list [l0], or the default item of addItem) with its updates
    applied one after the other. *)
Definition item_of (l0 : list value) (r : tracked) : value :=
  fold_left (fun x fv => set x fv.1 fv.2) (updates r)
    match from r with
    | Original j => default VUndef (l0 !! j)
    | Added _ => newItem
    end.

(** The order of the initial list, then the order of addition. *)
Definition before (a b : origin) : Prop :=
  match a, b with
  | Original i, Original j => (i < j)%nat
  | Original _, Added _ => True
  | Added _, Original _ => False
  | Added i, Added j => (i < j)%nat
  end.

(** Every row comes before the rows after it. *)
Fixpoint in_order (l : list origin) : Prop :=
  match l with
  | [] => True
  | a :: l' => Forall (before a) l' /\ in_order l'
  end.

(** A row of an initial list of [n] items, or one of [k] additions. *)
Definition known (n k : nat) (o : origin) : Prop :=
  match o with
  | Original j => (j < n)%nat
  | Added i => (i < k)%nat
  end.

End Spec.

(* ===================================================================== *)
(** ** Sample data *)
(* ===================================================================== *)

Module Samples.

(** 2024-01-01T20:00:00.000Z *)
Definition an_evening : Z := 1704139200000.

(** The extraction result [{storeName: "Cafe X", totalAmount: 250,
    items: [], ocrStatus: "success"}] (no date). *)
Definition cafe_ocr : value :=
  obj [ ("storeName", VStr "Cafe X"); ("totalAmount", num 250);
        ("items", VArr []); ("ocrStatus", VStr "success") ].

Definition cafe_file : value :=
  obj [ ("id", VStr "r1"); ("imageUrl", VStr "/img/r1.png");
        ("ocrData", cafe_ocr) ].

Definition tea : value :=
  obj [ ("name", VStr "Tea"); ("quantity", num 2); ("price", num 20);
        ("total", num 40) ].

Definition bun : value :=
  obj [ ("name", VStr "Bun"); ("quantity", num 1); ("price", num 15);
        ("total", num 15) ].

(** An extraction that failed but still segmented one line. *)
Definition failed_ocr : value :=
  obj [ ("items", VArr [tea]); ("ocrStatus", VStr "error");
        ("ocrMessage", VStr "unreadable") ].

Definition failed_file : value :=
  obj [ ("id", VStr "r2"); ("imageUrl", VStr "/img/r2.png");
        ("ocrData", failed_ocr) ].

Definition bakery_ocr : value :=
  obj [ ("storeName", VStr "Bakery"); ("date", VStr "2024-01-01");
        ("totalAmount", num 55); ("items", VArr [tea; bun]);
        ("ocrStatus", VStr "success") ].

Definition bakery_file : value :=
  obj [ ("id", VStr "r3"); ("imageUrl", VStr "/img/r3.png");
        ("ocrData", bakery_ocr) ].

(** The queries the Dashboard, the Receipts page and the Analytics page
    keep in the cache. *)
Definition a_cache : list query :=
  [ {| queryKey := ["receipts"; "u1"]; isInvalidated := false |};
    {| queryKey := ["receipt-stats"; "month"]; isInvalidated := false |};
    {| queryKey := ["analytics"; "month"]; isInvalidated := false |};
    {| queryKey := ["analytics"]; isInvalidated := false |} ].

Definition idle : Upload.page :=
  {| files := ["a.png"; "b.png"]; uploadedCount := 0;
     verifyModalOpen := false; pendingOCRData := None;
     Upload.isUploading := true; editMode := false;
     editedData := placeholder; verifyPending := false;
     posted := []; Upload.cache := a_cache; Upload.toasts := [] |}.

End Samples.
Import Samples.

(* ===================================================================== *)
(** ** The Upload page: the file selection *)
(* ===================================================================== *)

Module Selection.

(** [onDrop]: the accepted files are appended to the selection and the
    count of uploaded receipts is reset. *)
Definition onDrop (acceptedFiles : list string) (s : page) : page :=
  setUploadedCount 0 (setFiles (files s ++ acceptedFiles) s).

(** [removeFile(index)]: [prev.filter((_, i) => i !== index)] *)
Definition removeFile (index : nat) (s : page) : page :=
  setFiles (js_filter (fun _ i => negb (i =? index)%nat) (files s)) s.

(** The Clear All button. *)
Definition clearAll (s : page) : page := setFiles [] s.

(** [handleUpload]: with the page, the files handed to
    [uploadMutation.mutate], if it is called. *)
Definition handleUpload (s : page) : page * option (list string) :=
  if (length (files s) =? 0)%nat
  then (addToast (Error "Please select files to upload") s, None)
  else (s, Some (files s)).

End Selection.
Import Selection.

(* ===================================================================== *)
(** ** The Upload page as a transition system *)
(* ===================================================================== *)

Module App.

(** The page as it is first rendered, over a query cache [c] that other
    pages may have filled. *)
Definition initial (c : list query) : page :=
  {| files := []; uploadedCount := 0; verifyModalOpen := false;
     pendingOCRData := None; Upload.isUploading := false; editMode := false;
     editedData := placeholder; verifyPending := false;
     posted := []; Upload.cache := c; Upload.toasts := [] |}.

(** Everything that can happen to the page: the user changes the
    selection, asks for the upload, the upload settles, the user acts on
    the modal, a commit in flight settles. *)
Inductive transition : page -> page -> Prop :=
| t_drop s fs : transition s (onDrop fs s)
| t_remove s i : transition s (removeFile i s)
| t_clear s : transition s (clearAll s)
| t_upload s : transition s (fst (handleUpload s))
| t_uploading s fs :
    snd (handleUpload s) = Some fs -> transition s (setIsUploading true s)
| t_uploaded s now uploadedFiles : transition s (uploadOnSuccess now uploadedFiles s)
| t_upload_failed s : transition s (uploadOnError s)
| t_user s e : enabled s e = true -> transition s (handle e s)
| t_committed s : verifyPending s = true -> transition s (verifyOnSuccess s)
| t_commit_failed s : verifyPending s = true -> transition s (verifyOnError s).

Inductive reachable (c : list query) : page -> Prop :=
| reachable_initial : reachable c (initial c)
| reachable_step s s' : reachable c s -> transition s s' -> reachable c s'.

(** The fields of a draft built by the Normalizer. *)
Definition draft_keys : list string :=
  ["storeName"; "date"; "totalAmount"; "taxAmount"; "items"; "ocrStatus";
   "ocrMessage"; "imageUrl"; "receiptId"].

Definition complete (v : value) : Prop :=
  Forall (fun k => has v k = true) draft_keys.

(** The default a field of the draft gets. *)
Definition default_of (now : Z) (k : string) : value :=
  if String.eqb k "date" then VStr (today now)
  else if String.eqb k "totalAmount" || String.eqb k "taxAmount" then num 0
  else if String.eqb k "items" then VArr []
  else if String.eqb k "ocrStatus" then VStr "success"
  else VStr "".

(** Where the Normalizer reads a field of the draft from. *)
Definition source_of (firstFile ocrData : value) (k : string) : value :=
  if String.eqb k "imageUrl" then get firstFile "imageUrl"
  else if String.eqb k "receiptId" then get firstFile "id"
  else get ocrData k.

(** The extraction result without its falsy fields. *)
Definition truthy_fields (o : gmap string value) : gmap string value :=
  filter (fun kv => truthy kv.2 = true) o.

(** The user events that edit the staged draft. *)
Definition is_edit (e : event) : bool :=
  match e with
  | ClickAddItem | ClickDeleteItem _ | ChangeStoreName _ | ChangeDate _
  | ChangeTotal _ | ChangeTax _ | ChangeItemName _ _ | ChangeItemQty _ _
  | ChangeItemPrice _ _ | ChangeItemCategory _ _ => true
  | _ => false
  end.

Definition is_confirm (e : event) : bool :=
  match e with
  | ClickVerifyAndSave | ClickSaveChangesAndVerify => true
  | _ => false
  end.

(** What holds of the modal, the staged draft and the posted bodies. *)
Definition consistent (s : page) : Prop :=
  (verifyModalOpen s = true <-> is_Some (pendingOCRData s))
  /\ (pendingOCRData s = None -> editedData s = placeholder)
  /\ (forall d, pendingOCRData s = Some d -> complete d /\ complete (editedData s))
  /\ Forall complete (posted s)
  /\ (verifyPending s = true -> posted s <> []).

(** The two invalidations the page makes, the one after the other:
    [['receipts']], then [['receipt-stats']]. *)
Definition invalidateReceiptQueries (c : list query) : list query :=
  invalidateQueries ["receipt-stats"] (invalidateQueries ["receipts"] c).

(** A query that one of the two matches. *)
Definition receipt_query (q : query) : bool :=
  bool_decide (["receipts"] `prefix_of` queryKey q)
  || bool_decide (["receipt-stats"] `prefix_of` queryKey q).

(** The user events [es], one after the other. *)
Definition user_events (es : list event) (s : page) : page :=
  exec (map User es) s.

End App.
Import App.

(* ===================================================================== *)
(** ** The receipt detail modal: its state, save and delete *)
(* ===================================================================== *)

Module DetailModal.

(** The [receipt] prop and the state of the component; null is [None],
    and a receipt that is held is an object. *)
Record modal := {
  receipt : option value;
  editMode : bool;
  editedReceipt : option value;
  isSaving : bool;
  isDeleting : bool;
  showDeleteConfirm : bool
}.

(** The calls the modal makes to its props. *)
Inductive call :=
| OnSave (updatedReceipt : value)
| OnDelete (receiptId : value)
| OnClose.

(** How an awaited call ends. *)
Inductive outcome := Resolved | Rejected.

(** The effect on the [receipt] prop. *)
Definition receiptChanged (r : option value) (m : modal) : modal :=
  {| receipt := r; editMode := false; editedReceipt := r;
     isSaving := isSaving m; isDeleting := isDeleting m;
     showDeleteConfirm := showDeleteConfirm m |}.

Definition setEditMode (x : bool) (m : modal) : modal :=
  {| receipt := receipt m; editMode := x; editedReceipt := editedReceipt m;
     isSaving := isSaving m; isDeleting := isDeleting m;
     showDeleteConfirm := showDeleteConfirm m |}.

Definition setEditedReceipt (f : option value -> option value) (m : modal) : modal :=
  {| receipt := receipt m; editMode := editMode m;
     editedReceipt := f (editedReceipt m);
     isSaving := isSaving m; isDeleting := isDeleting m;
     showDeleteConfirm := showDeleteConfirm m |}.

Definition setIsSaving (x : bool) (m : modal) : modal :=
  {| receipt := receipt m; editMode := editMode m;
     editedReceipt := editedReceipt m;
     isSaving := x; isDeleting := isDeleting m;
     showDeleteConfirm := showDeleteConfirm m |}.

Definition setIsDeleting (x : bool) (m : modal) : modal :=
  {| receipt := receipt m; editMode := editMode m;
     editedReceipt := editedReceipt m;
     isSaving := isSaving m; isDeleting := x;
     showDeleteConfirm := showDeleteConfirm m |}.

Definition setShowDeleteConfirm (x : bool) (m : modal) : modal :=
  {| receipt := receipt m; editMode := editMode m;
     editedReceipt := editedReceipt m;
     isSaving := isSaving m; isDeleting := isDeleting m;
     showDeleteConfirm := x |}.

(** [editMode ? editedReceipt : receipt] *)
Definition displayReceipt (m : modal) : option value :=
  if editMode m then editedReceipt m else receipt m.

(** [handleSave], once the awaited [onSave] has ended as [res]: nothing
    happens without an [onSave] prop or with a null [editedReceipt]. *)
Definition handleSave (onSave : bool) (res : outcome) (m : modal) : modal * list call :=
  match onSave, editedReceipt m with
  | true, Some er =>
      (setIsSaving false
         match res with
         | Resolved => setEditMode false (setIsSaving true m)
         | Rejected => setIsSaving true m
         end,
       [OnSave er])
  | _, _ => (m, [])
  end.

Definition handleDeleteClick (m : modal) : modal := setShowDeleteConfirm true m.

(** [handleConfirmDelete], once the awaited [onDelete] has ended. *)
Definition handleConfirmDelete (onDelete : bool) (res : outcome) (m : modal)
    : modal * list call :=
  match onDelete, receipt m with
  | true, Some r =>
      match res with
      | Resolved =>
          (setIsDeleting false (setShowDeleteConfirm false (setIsDeleting true m)),
           [OnDelete (get r "id"); OnClose])
      | Rejected =>
          (setIsDeleting false (setIsDeleting true m), [OnDelete (get r "id")])
      end
  | _, _ => (m, [])
  end.

End DetailModal.

(* ===================================================================== *)
(** ** The receipt API: unwrapping the responses *)
(* ===================================================================== *)

Module Api.

Definition nullish (v : value) : bool :=
  match v with VUndef | VNull => true | _ => false end.

(** [v.k] where [v] may be undefined or null, on which the access throws
    ([None]). *)
Definition prop (v : value) (k : string) : option value :=
  if nullish v then None else Some (get v k).

(** [uploadBatch]: [data.uploaded || []] *)
Definition uploadBatch (data : value) : option value :=
  u ← prop data "uploaded"; Some (js_or u (VArr [])).

(** [getReceipts]: [data.receipts || data || []] *)
Definition getReceipts (data : value) : option value :=
  r ← prop data "receipts"; Some (js_or (js_or r data) (VArr [])).

(** [getReceipt] and [updateReceipt]: [data.receipt || data] *)
Definition getReceipt (data : value) : option value :=
  r ← prop data "receipt"; Some (js_or r data).

(** [getStats]: [data.stats || data] *)
Definition getStats (data : value) : option value :=
  r ← prop data "stats"; Some (js_or r data).

End Api.

(* ===================================================================== *)
(** ** The Receipts page: search and category filter *)
(* ===================================================================== *)

Module ReceiptsFilter.

(** [s.includes(t)] *)
Fixpoint includes (s t : string) : bool :=
  String.prefix t s ||
  match s with
  | String _ s' => includes s' t
  | EmptyString => false
  end.

(** [arr.some(p)] over the elements: it stops at the first element that
    satisfies [p]; a callback that throws ([None]) ends it. *)
Fixpoint some_of (p : value -> option bool) (l : list value) : option bool :=
  match l with
  | [] => Some false
  | x :: l' =>
      match p x with
      | None => None
      | Some true => Some true
      | Some false => some_of p l'
      end
  end.

(** [v.some(p)]: only an array has the method. *)
Definition some (p : value -> option bool) (v : value) : option bool :=
  match v with
  | VArr l => some_of p l
  | _ => None
  end.

(** [arr.filter(p)] with a callback that may throw. *)
Fixpoint filter_of (p : value -> option bool) (l : list value) : option (list value) :=
  match l with
  | [] => Some []
  | x :: l' =>
      match p x with
      | None => None
      | Some b =>
          match filter_of p l' with
          | None => None
          | Some r => Some (if b then x :: r else r)
          end
      end
  end.

Section Filter.

(** [String.prototype.toLowerCase] and [trim], taken as given. *)
Variable toLowerCase : string -> string.
Variable trim : string -> string.

(** [v.toLowerCase()]: only a string has the method. *)
Definition lower (v : value) : option string :=
  match v with
  | VStr s => Some (toLowerCase s)
  | _ => None
  end.

Definition matchesSearch (searchQuery : string) (receipt : value) : option bool :=
  if String.eqb searchQuery "" then Some true
  else
    sn ← Api.prop receipt "storeName";
    sn ← lower sn;
    if includes sn (toLowerCase searchQuery) then Some true
    else
      items ← Api.prop receipt "items";
      some (fun item =>
              nm ← Api.prop item "name";
              nm ← lower nm;
              Some (includes nm (toLowerCase searchQuery)))
           items.

Definition matchesCategory (selectedCategory : string) (receipt : value) : option bool :=
  let filterCategory := trim selectedCategory in
  if String.eqb selectedCategory "All" then Some true
  else
    items ← Api.prop receipt "items";
    some (fun item =>
            c ← Api.prop item "category";
            match js_or c (VStr "Other") with
            | VStr c' =>
                Some (String.eqb (toLowerCase (trim c')) (toLowerCase filterCategory))
            | _ => None
            end)
         items.

(** The debug line written for a category other than All reads the
    category of every item: [receipt.items.map(i => i.category)]. *)
Definition debugLine (selectedCategory : string) (receipt : value) : option unit :=
  if String.eqb selectedCategory "All" then Some tt
  else
    items ← Api.prop receipt "items";
    match items with
    | VArr l => if forallb (fun i => negb (Api.nullish i)) l then Some tt else None
    | _ => None
    end.

Definition shown (searchQuery selectedCategory : string) (receipt : value) : option bool :=
  ms ← matchesSearch searchQuery receipt;
  mc ← matchesCategory selectedCategory receipt;
  _ ← debugLine selectedCategory receipt;
  Some (ms && mc).

Definition filteredReceipts (searchQuery selectedCategory : string)
    (receipts : list value) : option (list value) :=
  filter_of (shown searchQuery selectedCategory) receipts.

(** A receipt as [LocalReceipt] declares it, as far as the filter reads
    it: a store name, and items with a name and an optional category. *)
Definition item_typed (item : value) : bool :=
  match item with
  | VObj _ =>
      match get item "name", js_or (get item "category") (VStr "Other") with
      | VStr _, VStr _ => true
      | _, _ => false
      end
  | _ => false
  end.

Definition receipt_typed (receipt : value) : bool :=
  match receipt with
  | VObj _ =>
      match get receipt "storeName", get receipt "items" with
      | VStr _, VArr l => forallb item_typed l
      | _, _ => false
      end
  | _ => false
  end.

End Filter.

(** An ASCII stand-in for [toLowerCase], for the examples. *)
Definition ascii_lower (c : ascii) : ascii :=
  let n := nat_of_ascii c in
  if ((65 <=? n) && (n <=? 90))%nat then ascii_of_nat (n + 32) else c.

Fixpoint lower_ascii (s : string) : string :=
  match s with
  | String c s' => String (ascii_lower c) (lower_ascii s')
  | EmptyString => ""
  end.

End ReceiptsFilter.

(* ===================================================================== *)
(** ** The client receipt store: the other actions *)
(* ===================================================================== *)

Module StoreActions.

Import receiptStore.

(** [addReceipt]: the new receipt goes first. *)
Definition addReceipt (receipt : value) (st : store) : store :=
  set_receipts (receipt :: receipts st) st.

Definition setReceipts (x : list value) (st : store) : store := set_receipts x st.

(** The [id]s of the receipts, in order. *)
Definition ids (st : store) : list value := map (fun r => get r "id") (receipts st).

End StoreActions.

(* ===================================================================== *)
(** ** Properties of the JavaScript operations *)
(* ===================================================================== *)

Section JSFacts.

Lemma get_set_eq v k x : get (set v k x) k = x.
Proof. unfold get, set. by rewrite lookup_insert_eq. Qed.

Lemma get_set_ne v k k' x : k <> k' -> get (set v k x) k' = get v k'.
Proof.
  intros Hne. unfold get, set. rewrite lookup_insert_ne by done.
  by destruct v.
Qed.

Lemma has_set v k k' x :
  has (set v k x) k' = bool_decide (k = k') || has v k'.
Proof.
  unfold has, set. destruct (decide (k = k')) as [->|Hne].
  - rewrite lookup_insert_eq. rewrite bool_decide_eq_true_2 by eauto.
    by rewrite bool_decide_eq_true_2.
  - rewrite lookup_insert_ne by done.
    rewrite (bool_decide_eq_false_2 (k = k')) by done.
    destruct v; simpl; try done.
    all: by rewrite lookup_empty, bool_decide_eq_false_2 by (intros [? ?]; done).
Qed.

Lemma has_set_keeps v k k' x : has v k' = true -> has (set v k x) k' = true.
Proof. intros H. rewrite has_set, H. apply orb_true_r. Qed.

Lemma js_or_falsy a b : truthy a = false -> js_or a b = b.
Proof. unfold js_or. by intros ->. Qed.

Lemma js_or_truthy a b : truthy a = true -> js_or a b = a.
Proof. unfold js_or. by intros ->. Qed.

Lemma js_or_defined a b :
  b <> VUndef -> b <> VNull -> js_or a b <> VUndef /\ js_or a b <> VNull.
Proof.
  intros Hu Hn. unfold js_or. destruct (truthy a) eqn:Ha; [|done].
  split; intros ->; discriminate.
Qed.

Lemma array_set_in_range l i x :
  (i < length l)%nat -> array_set l i x = <[i := x]> l.
Proof.
  intros Hi. unfold array_set.
  destruct (Nat.ltb_spec i (length l)); [done | lia].
Qed.

Lemma length_array_set_out_of_range l i x :
  (length l <= i)%nat -> length (array_set l i x) = S i.
Proof.
  intros Hi. unfold array_set.
  destruct (Nat.ltb_spec i (length l)); [lia |].
  rewrite !length_app, length_replicate. simpl. lia.
Qed.

(** Filtering out one index is deleting that position. *)
Lemma filter_from_delete {A} (index : nat) (l : list A) (k : nat) :
  filter_from (fun _ i => negb (i =? index)%nat) k l =
    if (index <? k)%nat then l else delete (index - k)%nat l.
Proof.
  revert k. induction l as [|x l IH]; intros k; simpl.
  - by destruct (index <? k)%nat.
  - rewrite IH. destruct (Nat.eqb_spec k index) as [->|Hne]; simpl.
    + destruct (Nat.ltb_spec index index); [lia|].
      destruct (Nat.ltb_spec index (S index)); [|lia].
      by replace (index - index)%nat with 0%nat by lia.
    + destruct (Nat.ltb_spec index k), (Nat.ltb_spec index (S k));
        try lia; [done|].
      replace (index - k)%nat with (S (index - S k)) by lia. done.
Qed.

Lemma js_filter_delete {A} (index : nat) (l : list A) :
  js_filter (fun _ i => negb (i =? index)%nat) l = delete index l.
Proof.
  unfold js_filter. rewrite filter_from_delete. simpl.
  by rewrite Nat.sub_0_r.
Qed.

Lemma delete_app_l {A} (l1 l2 : list A) i :
  (i < length l1)%nat -> delete i (l1 ++ l2) = delete i l1 ++ l2.
Proof.
  revert i. induction l1 as [|x l1 IH]; intros [|i] Hi; simpl in *;
    try lia; [done|]. f_equal. apply IH. lia.
Qed.

Lemma delete_app_r {A} (l1 l2 : list A) i :
  delete (length l1 + i)%nat (l1 ++ l2) = l1 ++ delete i l2.
Proof. induction l1 as [|x l1 IH]; simpl; [done|]. by f_equal. Qed.

(** [parseFloat] at the two ends of binary64, and in between. *)
Example parseFloat_ends :
  parseFloat "1e-400" = Dec 0 0 /\ truthy (VNum (parseFloat "1e-400")) = false
  /\ parseFloat "1e400" = Infinity false
  /\ parseFloat "-1e400" = Infinity true
  /\ parseFloat "12.50" = Dec 1250 (-2)
  /\ parseFloat "0.000" = Dec 0 0
  /\ parseFloat " 7 apples" = Dec 7 0
  /\ parseFloat "abc" = NaN.
Proof. split_and!; vm_compute; reflexivity. Qed.

End JSFacts.

(* ===================================================================== *)
(** ** Verification staging: the item operations *)
(* ===================================================================== *)

Section Staging.

Local Open Scope nat_scope.

Lemma items_of_set_items d l : items_of (set d "items" (VArr l)) = l.
Proof. unfold items_of. by rewrite get_set_eq. Qed.

Lemma items_of_set_other d k x :
  k <> "items" -> items_of (set d k x) = items_of d.
Proof. intros Hk. unfold items_of. by rewrite get_set_ne. Qed.

Lemma items_after_delete i d :
  items_of (handleDeleteItem i d) = delete i (items_of d).
Proof.
  unfold handleDeleteItem. by rewrite items_of_set_items, js_filter_delete.
Qed.

Lemma items_after_add d : items_of (handleAddItem d) = items_of d ++ [newItem].
Proof. unfold handleAddItem. by rewrite items_of_set_items. Qed.

Lemma items_after_change i f v d x :
  items_of d !! i = Some x ->
  items_of (handleItemChange i f v d) = <[i := set x f v]> (items_of d).
Proof.
  intros Hx. unfold handleItemChange. rewrite items_of_set_items, Hx. simpl.
  apply array_set_in_range. by eapply lookup_lt_Some.
Qed.

(** Out of range, [handleItemChange] grows the list up to the index. *)
Lemma items_after_change_out_of_range i f v d :
  (length (items_of d) <= i)%nat ->
  length (items_of (handleItemChange i f v d)) = S i.
Proof.
  intros Hi. unfold handleItemChange. rewrite items_of_set_items.
  by apply length_array_set_out_of_range.
Qed.

Lemma length_after_op op d :
  in_bounds op d ->
  length (items_of (apply_op op d)) + (if is_remove op then 1 else 0)
  = length (items_of d) + (if is_add op then 1 else 0).
Proof.
  destruct op as [i f v|i|]; simpl; intros Hb.
  - destruct (lookup_lt_is_Some_2 _ _ Hb) as [x Hx].
    rewrite (items_after_change _ _ _ _ _ Hx), length_insert. lia.
  - rewrite items_after_delete, length_delete by (by apply lookup_lt_is_Some_2).
    lia.
  - rewrite items_after_add, length_app. simpl. lia.
Qed.

Lemma length_after_run ops d :
  valid ops d ->
  length (items_of (run ops d)) + removes ops = length (items_of d) + adds ops.
Proof.
  revert d. induction ops as [|op ops IH]; intros d Hv; simpl.
  - unfold adds, removes. simpl. lia.
  - destruct Hv as [Hb Hv]. specialize (IH _ Hv).
    pose proof (length_after_op _ _ Hb) as Hop.
    unfold adds, removes in *. simpl.
    destruct (is_add op), (is_remove op); simpl; lia.
Qed.

(** The controls the modal renders only produce in-bounds operations, and
    handling the event applies the operation to [editedData]; the modal
    stays as it is otherwise. *)
Lemma step_item_op s e s' op :
  step s e s' -> op_of_event e = Some op ->
  in_bounds op (editedData s) /\ editedData s' = apply_op op (editedData s)
  /\ verifyModalOpen s' = true /\ editMode s' = true.
Proof.
  intros [s0 e0 Hen] Hop. unfold enabled, inRange in Hen.
  apply andb_prop in Hen as [Hopen Hen].
  destruct e0; try discriminate; injection Hop as <-; simpl;
    apply andb_prop in Hen as [Hmode Hen]; split_and!; try done.
  all: by apply Nat.ltb_lt.
Qed.

Lemma item_steps_run s ops s' :
  item_steps s ops s' ->
  valid ops (editedData s) /\ editedData s' = run ops (editedData s)
  /\ (ops <> [] -> verifyModalOpen s' = true /\ editMode s' = true).
Proof.
  induction 1 as [s|s e op s' ops s'' Hstep Hop Hsteps (Hv & Hrun & Hopen)];
    [done|].
  destruct (step_item_op _ _ _ _ Hstep Hop) as (Hb & He & Ho & Hm).
  simpl. rewrite <- He. split_and!; try done.
  intros _. destruct ops as [|op' ops].
  - by inversion Hsteps; subst.
  - by apply Hopen.
Qed.

Section Tracking.

Import Spec.

Lemma item_of_updated l0 f v r :
  item_of l0 (updated f v r) = set (item_of l0 r) f v.
Proof. unfold item_of, updated. simpl. by rewrite fold_left_app. Qed.

Lemma alter_is_insert {A} (g : A -> A) (l : list A) i x :
  l !! i = Some x -> alter g i l = <[i := g x]> l.
Proof.
  revert i. induction l as [|y l IH]; intros [|i] H; simpl in *; try done.
  - by injection H as ->.
  - f_equal. by apply IH.
Qed.

Lemma in_order_snoc l a :
  in_order l -> Forall (fun x => before x a) l -> in_order (l ++ [a]).
Proof.
  induction l as [|b l IH]; simpl.
  - intros _ _. split; constructor.
  - intros [Hb Hl] Ha. apply Forall_cons in Ha as [Hba Ha]. split.
    + apply Forall_app. split; [done|]. by apply Forall_singleton.
    + by apply IH.
Qed.

Lemma in_order_delete l i : in_order l -> in_order (delete i l).
Proof.
  revert i. induction l as [|b l IH]; intros [|i]; simpl; try done.
  - by intros [_ ?].
  - intros [Hb Hl]. split; [by apply Forall_delete | by apply IH].
Qed.

Lemma from_alter f v i (rows : list tracked) :
  from <$> alter (updated f v) i rows = from <$> rows.
Proof.
  rewrite (list_fmap_alter from (updated f v) (fun o => o)).
  - by apply list_alter_id.
  - by apply Forall_forall.
Qed.

Lemma initial_rows_items l0 : item_of l0 <$> initial_rows (length l0) = l0.
Proof.
  unfold initial_rows. change (map ?f ?l) with (f <$> l).
  rewrite <- list_fmap_compose. apply list_eq. intros i.
  rewrite list_lookup_fmap. destruct (decide (i < length l0)) as [Hi|Hi].
  - rewrite lookup_seq_lt by done. simpl. unfold item_of. simpl.
    destruct (lookup_lt_is_Some_2 _ _ Hi) as [x ->]. done.
  - rewrite lookup_seq_ge by lia. by rewrite lookup_ge_None_2 by lia.
Qed.

Lemma initial_rows_from n : from <$> initial_rows n = Original <$> seq 0 n.
Proof.
  unfold initial_rows. change (map ?f ?l) with (f <$> l).
  by rewrite <- list_fmap_compose.
Qed.

Lemma in_order_originals a n : in_order (Original <$> seq a n).
Proof.
  revert a. induction n as [|n IH]; intros a; simpl; [done|].
  split; [|apply IH]. apply Forall_forall. intros o Ho.
  apply list_elem_of_fmap in Ho as (j & -> & Hj).
  apply elem_of_seq in Hj. simpl. lia.
Qed.

Lemma known_originals n : Forall (known n 0) (Original <$> seq 0 n).
Proof.
  apply Forall_forall. intros o Ho.
  apply list_elem_of_fmap in Ho as (j & -> & Hj).
  apply elem_of_seq in Hj. simpl. lia.
Qed.

(** One operation, on the items and on the tracked rows. *)
Lemma track_op_invariant l0 op d t :
  in_bounds op d ->
  items_of d = item_of l0 <$> t.1 ->
  in_order (from <$> t.1) ->
  Forall (known (length l0) t.2) (from <$> t.1) ->
  items_of (apply_op op d) = item_of l0 <$> (track_op op t).1
  /\ in_order (from <$> (track_op op t).1)
  /\ Forall (known (length l0) (track_op op t).2) (from <$> (track_op op t).1)
  /\ (track_op op t).2 = t.2 + (if is_add op then 1 else 0).
Proof.
  destruct t as [rows n]. destruct op as [i f v|i|]; simpl; intros Hb Hit Hord Hkn.
  - destruct (lookup_lt_is_Some_2 _ _ Hb) as [x Hx].
    rewrite (items_after_change _ _ _ _ _ Hx), from_alter.
    split_and!; [|done|done|lia].
    rewrite (list_fmap_alter (item_of l0) (updated f v) (fun y => set y f v)).
    + rewrite <- Hit. symmetry.
      by apply (alter_is_insert (fun y => set y f v)).
    + apply Forall_forall. intros r _. apply item_of_updated.
  - rewrite items_after_delete, !list_fmap_delete, Hit.
    split_and!; [done | by apply in_order_delete | by apply Forall_delete | lia].
  - rewrite items_after_add, !fmap_app, Hit. simpl.
    split_and!; [done| | |lia].
    + apply in_order_snoc; [done|]. eapply Forall_impl; [exact Hkn|].
      intros [j|k]; simpl; [done | lia].
    + apply Forall_app. split.
      * eapply Forall_impl; [exact Hkn|]. intros [j|k]; simpl; lia.
      * apply Forall_singleton. simpl. lia.
Qed.

(** A sequence of operations, on the items and on the tracked rows. *)
Lemma track_invariant l0 ops d t :
  valid ops d ->
  items_of d = item_of l0 <$> t.1 ->
  in_order (from <$> t.1) ->
  Forall (known (length l0) t.2) (from <$> t.1) ->
  items_of (run ops d) = item_of l0 <$> (track ops t).1
  /\ in_order (from <$> (track ops t).1)
  /\ Forall (known (length l0) (t.2 + adds ops)) (from <$> (track ops t).1).
Proof.
  revert d t. induction ops as [|op ops IH]; intros d t Hv Hit Hord Hkn; simpl.
  - unfold adds. simpl. by rewrite Nat.add_0_r.
  - destruct Hv as [Hb Hv].
    destruct (track_op_invariant l0 op d t Hb Hit Hord Hkn) as (H1 & H2 & H3 & H4).
    destruct (IH _ _ Hv H1 H2 H3) as (K1 & K2 & K3).
    split_and!; try done. rewrite H4 in K3.
    replace (t.2 + adds (op :: ops)) with (t.2 + (if is_add op then 1 else 0) + adds ops);
      [done|]. unfold adds. simpl. destruct (is_add op); simpl; lia.
Qed.

End Tracking.

End Staging.

(** **** C3 *)

(** Claim C3.  Take any sequence of setItemField, removeItem and addItem
    operations performed on the modal, each one by a user event on a
    control the modal offers; [l0] is the items list before and [l] the
    one after.  The length of [l] is that of [l0] plus the number of adds
    minus the number of removes.  The list [l] is, row by row, the list of
    the tracked rows that are left: each row is the item it comes from (a
    row of [l0], or the default item of an add) with exactly the field
    updates made to that row, in the order made.  The rows that are left
    stand in order: rows of [l0] in the order they have in [l0], then the
    added rows in the order of addition; each comes from a row that [l0]
    has or from one of the adds.  After the sequence, removeItem is
    offered for every row, also for the only one, and it removes exactly
    that row: the list gets one shorter, the rows before it stay, the rows
    after it move down by one, and removing the only row leaves the empty
    list. *)
Theorem item_operations_net_length_and_order
    (s s' : page) (ops : list item_op) :
  item_steps s ops s' ->
  let l0 := items_of (editedData s) in
  let l := items_of (editedData s') in
  let rows := Spec.rows_after ops (length l0) in
  (length l + removes ops = length l0 + adds ops)%nat
  /\ l = Spec.item_of l0 <$> rows
  /\ Spec.in_order (Spec.from <$> rows)
  /\ Forall (Spec.known (length l0) (adds ops)) (Spec.from <$> rows)
  /\ (forall i, (i < length l)%nat ->
        let l' := items_of (handleDeleteItem i (editedData s')) in
        (verifyModalOpen s' = true -> editMode s' = true ->
         enabled s' (ClickDeleteItem i) = true)
        /\ l' = delete i l
        /\ S (length l') = length l
        /\ (forall j, (j < i)%nat -> l' !! j = l !! j)
        /\ (forall j, (i <= j)%nat -> l' !! j = l !! S j)
        /\ (length l = 1%nat -> l' = [])).
Proof.
  intros Hsteps l0 l rows.
  destruct (item_steps_run _ _ _ Hsteps) as (Hv & Hrun & _).
  unfold l, l0, rows, Spec.rows_after. rewrite Hrun.
  destruct (track_invariant (items_of (editedData s)) ops (editedData s)
              (Spec.initial_rows (length (items_of (editedData s))), 0%nat) Hv)
    as (H1 & H2 & H3).
  { simpl. by rewrite initial_rows_items. }
  { simpl. rewrite initial_rows_from. apply in_order_originals. }
  { simpl. rewrite initial_rows_from. apply known_originals. }
  split; [by apply length_after_run|]. split; [done|]. split; [done|].
  split; [done|].
  intros i Hi. rewrite items_after_delete. split_and!.
  - intros Hopen Hmode. unfold enabled, inRange. rewrite Hopen, Hmode, Hrun.
    simpl. by apply Nat.ltb_lt.
  - done.
  - rewrite length_delete by (by apply lookup_lt_is_Some_2). lia.
  - intros j Hj. by apply list_lookup_delete_lt.
  - intros j Hj. by apply list_lookup_delete_ge.
  - clear H1. intros Hone.
    destruct (items_of (run ops (editedData s))) as [|x [|y l2]]; simpl in *; try lia.
    by replace i with 0%nat by lia.
Qed.

Lemma item_operations_witness :
  items_of
    (editedData
       (exec [User (ChangeItemPrice 1 "18"); User (ClickDeleteItem 0);
              User ClickAddItem; User (ChangeItemName 1 "Jam")]
          (setEditMode true (uploadOnSuccess an_evening [bakery_file] idle))))
  = [set bun "price" (num 18); set newItem "name" (VStr "Jam")].
Proof.
  assert (H : item_steps
                (setEditMode true (uploadOnSuccess an_evening [bakery_file] idle))
                [SetItemField 1 "price" (num 18); RemoveItem 0; AddItem;
                 SetItemField 1 "name" (VStr "Jam")]
                (exec [User (ChangeItemPrice 1 "18"); User (ClickDeleteItem 0);
                       User ClickAddItem; User (ChangeItemName 1 "Jam")]
                   (setEditMode true
                      (uploadOnSuccess an_evening [bakery_file] idle)))).
  { eapply (item_steps_cons _ (ChangeItemPrice 1 "18"));
      [apply step_event; reflexivity | reflexivity |].
    eapply (item_steps_cons _ (ClickDeleteItem 0));
      [apply step_event; reflexivity | reflexivity |].
    eapply (item_steps_cons _ ClickAddItem);
      [apply step_event; reflexivity | reflexivity |].
    eapply (item_steps_cons _ (ChangeItemName 1 "Jam"));
      [apply step_event; reflexivity | reflexivity |].
    apply item_steps_nil. }
  destruct (item_operations_net_length_and_order _ _ _ H) as (_ & Hl & _).
  rewrite Hl. vm_compute. reflexivity.
Defined.

(* ===================================================================== *)
(** ** The client receipt store *)
(* ===================================================================== *)

Section Store.

Import receiptStore.

Local Open Scope nat_scope.

Lemma filter_keeps_order {A} (f : A -> bool) (l : list A) :
  List.filter f l `sublist_of` l.
Proof.
  induction l as [|x l IH]; simpl; [constructor|].
  destruct (f x); by constructor.
Qed.

Lemma filter_split_length {A} (f : A -> bool) (l : list A) :
  length (List.filter (fun x => negb (f x)) l) + length (List.filter f l)
  = length l.
Proof. induction l as [|x l IH]; simpl; [done|]. destruct (f x); simpl; lia. Qed.

(** **** C10 *)

(** Claim C10.  In the client receipt store, updateReceipt keeps the
    length of the receipts list, puts at every position either the receipt
    that was there (when its id differs from the given id) or that receipt
    merged with the updates (when its id is the given id), and
    deleteReceipt keeps, in their order, exactly the receipts whose id
    differs from the given id: it removes all those whose id is equal and
    nothing else.  Neither touches the rest of the store. *)
Theorem store_update_and_delete_frame (id : string) (updates : value) (st : store) :
  let up := updateReceipt id updates st in
  let del := deleteReceipt id st in
  length (receipts up) = length (receipts st)
  /\ (forall i r, receipts st !! i = Some r ->
        receipts up !! i = Some (if id_is id r then merge r updates else r))
  /\ (forall i r, receipts st !! i = Some r -> id_is id r = false ->
        receipts up !! i = Some r)
  /\ (forall r, r ∈ receipts del <-> r ∈ receipts st /\ id_is id r = false)
  /\ receipts del `sublist_of` receipts st
  /\ length (receipts del) + length (List.filter (id_is id) (receipts st))
     = length (receipts st)
  /\ (selectedReceipt up, filters up, isUploading up, uploadProgress up)
     = (selectedReceipt st, filters st, isUploading st, uploadProgress st)
  /\ (selectedReceipt del, filters del, isUploading del, uploadProgress del)
     = (selectedReceipt st, filters st, isUploading st, uploadProgress st).
Proof.
  simpl. split_and!.
  - apply length_map.
  - intros i r Hr.
    change (map ?f ?l) with (f <$> l). by rewrite list_lookup_fmap, Hr.
  - intros i r Hr Hid.
    change (map ?f ?l) with (f <$> l). rewrite list_lookup_fmap, Hr. simpl.
    by rewrite Hid.
  - intros r. rewrite !list_elem_of_In, filter_In, negb_true_iff. done.
  - apply filter_keeps_order.
  - apply filter_split_length.
  - done.
  - done.
Qed.

Example store_update_and_delete_sample :
  let st := {| receipts := [cafe_file; failed_file; bakery_file];
               selectedReceipt := None; filters := obj [];
               isUploading := false; uploadProgress := 0%Z |} in
  receipts (deleteReceipt "r2" st) = [cafe_file; bakery_file]
  /\ receipts (updateReceipt "r2" (obj [("notes", VStr "paid")]) st)
     = [cafe_file; set failed_file "notes" (VStr "paid"); bakery_file].
Proof. split; vm_compute; reflexivity. Qed.

End Store.

(* ===================================================================== *)
(** ** The Extraction Normalizer *)
(* ===================================================================== *)

Section Normalizer.

Ltac abstract_defaults :=
  repeat match goal with
         | |- context [js_or ?a ?b] => generalize (js_or a b); intro
         end.

Lemma normalize_get now firstFile ocrData :
  let d := normalize now firstFile ocrData in
  get d "storeName" = js_or (get ocrData "storeName") (VStr "")
  /\ get d "date" = js_or (get ocrData "date") (VStr (today now))
  /\ get d "totalAmount" = js_or (get ocrData "totalAmount") (num 0)
  /\ get d "taxAmount" = js_or (get ocrData "taxAmount") (num 0)
  /\ get d "items" = js_or (get ocrData "items") (VArr [])
  /\ get d "ocrStatus" = js_or (get ocrData "ocrStatus") (VStr "success")
  /\ get d "ocrMessage" = js_or (get ocrData "ocrMessage") (VStr "")
  /\ get d "imageUrl" = js_or (get firstFile "imageUrl") (VStr "")
  /\ get d "receiptId" = js_or (get firstFile "id") (VStr "").
Proof.
  simpl. unfold normalize. generalize (today now). intros t.
  abstract_defaults. split_and!; reflexivity.
Qed.

Lemma normalize_has now firstFile ocrData :
  let d := normalize now firstFile ocrData in
  has d "ocrStatus" = true /\ has d "ocrMessage" = true
  /\ has d "imageUrl" = true /\ has d "receiptId" = true
  /\ has d "category" = false /\ get d "category" = VUndef.
Proof.
  simpl. unfold normalize. generalize (today now). intros t.
  abstract_defaults. split_and!; reflexivity.
Qed.

Lemma lacks_app c s1 s2 : lacks c s1 -> lacks c s2 -> lacks c (s1 +:+ s2).
Proof. induction s1; simpl; [done|]. intros [? ?] ?. auto. Qed.

Lemma split_head_app c s1 s2 :
  lacks c s1 -> split_head c (s1 +:+ String c s2) = s1.
Proof.
  induction s1 as [|a s1 IH]; simpl.
  - intros _. by rewrite Ascii.eqb_refl.
  - intros [Hne Hl]. destruct (Ascii.eqb_spec a c); [done|]. by rewrite IH.
Qed.

Lemma digit_is_not_T (n : Z) :
  ascii_of_nat (48 + Z.to_nat (n mod 10)) <> "T"%char.
Proof.
  pose proof (Z.mod_pos_bound n 10 ltac:(lia)) as Hb.
  assert (Hk : (Z.to_nat (n mod 10) < 10)%nat) by lia.
  revert Hk. generalize (Z.to_nat (n mod 10)). intros k Hk.
  do 10 (destruct k as [|k]; [discriminate|]). lia.
Qed.

Lemma lacks_T_pad w n : lacks "T" (pad w n).
Proof.
  revert n. induction w as [|w IH]; intros n; simpl; [done|].
  apply lacks_app; [apply IH|]. simpl. split; [apply digit_is_not_T | done].
Qed.

Lemma lacks_T_iso_year y : lacks "T" (iso_year y).
Proof.
  unfold iso_year. destruct (_ && _); [apply lacks_T_pad|].
  apply lacks_app; [|apply lacks_T_pad]. by destruct (y <? 0).
Qed.

Lemma lacks_T_utc_date ms : lacks "T" (utc_date ms).
Proof.
  unfold utc_date. destruct (civil_from_days _) as [[y m] d].
  assert (Hdash : lacks "T" "-") by (simpl; split; [discriminate | done]).
  apply lacks_app; [apply lacks_T_iso_year|].
  apply lacks_app; [exact Hdash|].
  apply lacks_app; [apply lacks_T_pad|].
  apply lacks_app; [exact Hdash | apply lacks_T_pad].
Qed.

(** The default date is the date of the current UTC day. *)
Lemma today_is_utc_date now : today now = utc_date now.
Proof.
  unfold today, toISOString.
  change ("T" +:+ ?s) with (String "T" s).
  apply split_head_app, lacks_T_utc_date.
Qed.


(** A first file that passes the test for OCR data is an object. *)
Lemma hasOcrData_in_operand first :
  hasOcrData first = true -> in_operand first = true.
Proof.
  unfold hasOcrData, has. destruct first; simpl; try done;
    by rewrite ?andb_false_r.
Qed.

Lemma upload_success_stages now first rest s :
  hasOcrData first = true ->
  let d := normalize now first (get first "ocrData") in
  let s' := uploadOnSuccess now (first :: rest) s in
  pendingOCRData s' = Some d /\ editedData s' = d /\ data s' = d
  /\ verifyModalOpen s' = true /\ editMode s' = editMode s
  /\ verifyPending s' = verifyPending s /\ posted s' = posted s
  /\ uploadedCount s' = S (length rest).
Proof.
  intros H. unfold uploadOnSuccess.
  rewrite (hasOcrData_in_operand _ H), H. by split_and!.
Qed.

(** **** C1 *)

(** Claim C1, as amended.  For every extraction result, each field of the
    draft the Normalizer builds is defined (neither undefined nor null),
    and a missing field gets a typed default: missing storeName the empty
    string, missing date the date of the current UTC day as YYYY-MM-DD,
    missing totalAmount and taxAmount 0, missing items the empty sequence.
    The draft has no category field.  For the extraction result
    {storeName: "Cafe X", totalAmount: 250, items: [], ocrStatus:
    "success"} the draft is {storeName: "Cafe X", date: the UTC date,
    totalAmount: 250, taxAmount: 0, items: [], ocrStatus: "success",
    ocrMessage: "", imageUrl and receiptId: those of the uploaded file, or
    "" without them}. *)
Theorem normalizer_defaults (now : Z) (firstFile ocrData : value) :
  let d := normalize now firstFile ocrData in
  (missing ocrData "storeName" -> get d "storeName" = VStr "")
  /\ (missing ocrData "date" -> get d "date" = VStr (utc_date now))
  /\ (missing ocrData "totalAmount" -> get d "totalAmount" = num 0)
  /\ (missing ocrData "taxAmount" -> get d "taxAmount" = num 0)
  /\ (missing ocrData "items" -> get d "items" = VArr [])
  /\ Forall (fun k => get d k <> VUndef /\ get d k <> VNull)
       ["storeName"; "date"; "totalAmount"; "taxAmount"; "items"; "ocrStatus";
        "ocrMessage"; "imageUrl"; "receiptId"]
  /\ has d "category" = false
  /\ (ocrData = cafe_ocr ->
      d = obj [ ("storeName", VStr "Cafe X"); ("date", VStr (utc_date now));
                ("totalAmount", num 250); ("taxAmount", num 0);
                ("items", VArr []); ("ocrStatus", VStr "success");
                ("ocrMessage", VStr "");
                ("imageUrl", js_or (get firstFile "imageUrl") (VStr ""));
                ("receiptId", js_or (get firstFile "id") (VStr "")) ]).
Proof.
  intros d.
  destruct (normalize_get now firstFile ocrData)
    as (Hs & Hd & Ht & Hx & Hi & Ho & Hm & Hu & Hr).
  fold d in Hs, Hd, Ht, Hx, Hi, Ho, Hm, Hu, Hr.
  unfold missing. split_and!.
  - intros H. by rewrite Hs, H.
  - intros H. by rewrite Hd, H, today_is_utc_date.
  - intros H. by rewrite Ht, H.
  - intros H. by rewrite Hx, H.
  - intros H. by rewrite Hi, H.
  - repeat match goal with
           | |- Forall _ (_ :: _) => apply Forall_cons; split
           | |- Forall _ [] => solve [constructor]
           end;
      rewrite ?Hs, ?Hd, ?Ht, ?Hx, ?Hi, ?Ho, ?Hm, ?Hu, ?Hr;
      apply js_or_defined; discriminate.
  - apply (normalize_has now firstFile ocrData).
  - intros ->. unfold d, normalize. rewrite today_is_utc_date.
    generalize (utc_date now). intros t.
    generalize (js_or (get firstFile "imageUrl") (VStr "")).
    generalize (js_or (get firstFile "id") (VStr "")). intros r u.
    reflexivity.
Qed.

Lemma normalizer_defaults_witness :
  missing cafe_ocr "date" /\ missing cafe_ocr "taxAmount"
  /\ get (normalize an_evening cafe_file cafe_ocr) "date" = VStr "2024-01-01"
  /\ get (normalize an_evening cafe_file cafe_ocr) "taxAmount" = num 0.
Proof.
  destruct (normalizer_defaults an_evening cafe_file cafe_ocr)
    as (_ & Hd & _ & Hx & _).
  split; [reflexivity|]. split; [reflexivity|].
  split; [apply Hd | apply Hx]; reflexivity.
Defined.

(** The claim as stated fails on its own scenario: the draft has no
    category (so not "Other"), and its date is the UTC date, which on an
    evening in a zone east of Greenwich (here UTC+05:30) is not the local
    date. *)
Lemma normalizer_scenario_counterexample :
  get (normalize an_evening cafe_file cafe_ocr) "category" <> VStr "Other"
  /\ get (normalize an_evening cafe_file cafe_ocr) "date"
     <> VStr (Spec.local_date 330 an_evening).
Proof. split; vm_compute; discriminate. Qed.

(** **** C9 *)



End Normalizer.

(* ===================================================================== *)
(** ** Verification staging: numeric edits and the footer controls *)
(* ===================================================================== *)

Section Controls.

Local Open Scope nat_scope.

Lemma item_after_change s idx f v x :
  items_of (editedData s) !! idx = Some x ->
  items_of (editedData (setEditedData (handleItemChange idx f v) s)) !! idx
  = Some (set x f v).
Proof.
  intros Hx. simpl. rewrite (items_after_change _ _ _ _ _ Hx).
  apply list_lookup_insert_eq. by eapply lookup_lt_Some.
Qed.

(** What the numeric inputs of the staging form store is never NaN. *)
Lemma coerced_is_not_NaN text z :
  js_or (VNum (parseFloat text)) (num z) <> VNum NaN.
Proof. unfold js_or. destruct (parseFloat text); simpl; try done.
       destruct (m =? 0)%Z; done. Qed.

(** **** C4 *)

(** Claim C4, as amended.  For every numeric field edit on a staged draft,
    non-numeric input is coerced rather than rejected or stored as an
    exceptional value: totalAmount, taxAmount and the price of an item
    become 0, the quantity of an item becomes 1, and whatever the text no
    such field is ever stored as NaN.  In particular
    setItemField(0, 'price', "abc") stores price 0. *)
Theorem staged_numeric_edits_coerce
    (s : page) (idx : nat) (x : value) (text : string) :
  parseFloat text = NaN ->
  items_of (editedData s) !! idx = Some x ->
  get (editedData (handle (ChangeTotal text) s)) "totalAmount" = num 0
  /\ get (editedData (handle (ChangeTax text) s)) "taxAmount" = num 0
  /\ items_of (editedData (handle (ChangeItemPrice idx text) s)) !! idx
     = Some (set x "price" (num 0))
  /\ items_of (editedData (handle (ChangeItemQty idx text) s)) !! idx
     = Some (set x "quantity" (num 1))
  /\ (forall any : string,
        get (editedData (handle (ChangeTotal any) s)) "totalAmount" <> VNum NaN
        /\ get (editedData (handle (ChangeTax any) s)) "taxAmount" <> VNum NaN
        /\ (forall y,
              items_of (editedData (handle (ChangeItemPrice idx any) s)) !! idx
                = Some y -> get y "price" <> VNum NaN)
        /\ (forall y,
              items_of (editedData (handle (ChangeItemQty idx any) s)) !! idx
                = Some y -> get y "quantity" <> VNum NaN)).
Proof.
  intros Hnan Hx. split_and!.
  - unfold handle. rewrite Hnan. apply get_set_eq.
  - unfold handle. rewrite Hnan. apply get_set_eq.
  - unfold handle. rewrite Hnan. by apply item_after_change.
  - unfold handle. rewrite Hnan. by apply item_after_change.
  - intros any. unfold handle. split_and!.
    + unfold handleInputChange. simpl editedData. rewrite get_set_eq.
      apply coerced_is_not_NaN.
    + unfold handleInputChange. simpl editedData. rewrite get_set_eq.
      apply coerced_is_not_NaN.
    + intros y. rewrite (item_after_change _ _ _ _ _ Hx). intros [= <-].
      rewrite get_set_eq. apply coerced_is_not_NaN.
    + intros y. rewrite (item_after_change _ _ _ _ _ Hx). intros [= <-].
      rewrite get_set_eq. apply coerced_is_not_NaN.
Qed.

Lemma staged_numeric_edits_witness :
  let s := setEditMode true (uploadOnSuccess an_evening [bakery_file] idle) in
  parseFloat "abc" = NaN
  /\ enabled s (ChangeItemPrice 0 "abc") = true
  /\ items_of (editedData (handle (ChangeItemPrice 0 "abc") s)) !! 0
     = Some (set tea "price" (num 0)).
Proof.
  intros s. split; [reflexivity|]. split; [reflexivity|].
  apply (staged_numeric_edits_coerce s 0 tea "abc"); reflexivity.
Defined.

(** The claim as stated fails for the quantity of an item of a staged
    draft: non-numeric input makes it 1, not 0. *)
Lemma quantity_edit_counterexample :
  enabled (setEditMode true (uploadOnSuccess an_evening [bakery_file] idle))
          (ChangeItemQty 0 "abc") = true
  /\ get (default VUndef
            (items_of
               (editedData
                  (handle (ChangeItemQty 0 "abc")
                     (setEditMode true
                        (uploadOnSuccess an_evening [bakery_file] idle)))) !! 0))
         "quantity" = num 1
  /\ num 1 <> num 0.
Proof. split; [reflexivity|]. split; [reflexivity | discriminate]. Qed.

(** Editing a persisted receipt stores what [parseFloat] returns: for
    non-numeric input that is NaN. *)
Example detail_modal_stores_NaN :
  get (default VUndef
         (ReceiptDetailModal.changeTotalAmount "abc" (Some bakery_file)))
      "totalAmount" = VNum NaN
  /\ (ReceiptDetailModal.items_of
        (ReceiptDetailModal.changeItemPrice 0 "abc" (Some bakery_ocr)) !! 0)
     = Some (set tea "price" (VNum NaN)).
Proof. split; reflexivity. Qed.

(** **** C5 *)




(** An error draft without items can be confirmed after entering edit
    mode, whether or not anything is then changed. *)
Example error_draft_without_items :
  let s := uploadOnSuccess an_evening
             [obj [("ocrData", obj [("ocrStatus", VStr "error")])]] idle in
  enabled s ClickEditAndAddItems = true
  /\ enabled (handle ClickEditAndAddItems s) ClickSaveChangesAndVerify = true
  /\ posted (handle ClickSaveChangesAndVerify (handle ClickEditAndAddItems s))
     = [editedData s].
Proof. split_and!; reflexivity. Qed.

End Controls.

(* ===================================================================== *)
(** ** Commit: the payload, failure and retry, the drafts of a batch *)
(* ===================================================================== *)

Section Commit.

Lemma has_after_event s e k :
  e <> ClickCancel ->
  has (editedData s) k = true -> has (data s) k = true ->
  has (editedData (handle e s)) k = true.
Proof.
  intros Hne He Hd.
  destruct e; try done; simpl;
    first [ exact He | exact Hd | by apply (has_set_keeps (editedData s)) ].
Qed.

Lemma pending_after_action a s :
  pendingOCRData (act a s) = pendingOCRData s \/ pendingOCRData (act a s) = None.
Proof. destruct a as [e| |]; [destruct e|..]; simpl; auto. Qed.

Lemma pending_after_trace tr s :
  pendingOCRData (exec tr s) = pendingOCRData s \/ pendingOCRData (exec tr s) = None.
Proof.
  revert s. induction tr as [|a tr IH]; intros s; simpl; [auto|].
  destruct (IH (act a s)) as [H|H]; [|auto].
  rewrite H. apply pending_after_action.
Qed.

(** **** C2 *)

(** Claim C2.  If the commit of a confirmed draft fails, the staged draft
    is left as it was: it is not discarded, the modal stays open and holds
    the same data; confirming again posts the same data again, and a
    confirm control that was offered before is offered again.  The draft
    is discarded, and the modal closed, when the commit succeeds. *)
Theorem commit_failure_keeps_the_draft (s : page) :
  let failed := verifyOnError (handleConfirm s) in
  pendingOCRData failed = pendingOCRData s
  /\ editedData failed = editedData s
  /\ verifyModalOpen failed = verifyModalOpen s
  /\ posted (handleConfirm s) = posted s ++ [editedData s]
  /\ posted (handleConfirm failed) = posted s ++ [editedData s; editedData s]
  /\ (enabled s ClickVerifyAndSave = true ->
      enabled failed ClickVerifyAndSave = true)
  /\ pendingOCRData (verifyOnSuccess (handleConfirm s)) = None
  /\ verifyModalOpen (verifyOnSuccess (handleConfirm s)) = false.
Proof.
  simpl. split_and!; try done.
  - by rewrite <- app_assoc.
  - unfold enabled, statusIsError, data. simpl.
    destruct (verifyModalOpen s), (editMode s); simpl; try done.
    rewrite !negb_true_iff, !orb_false_iff. by intros [_ ->].
Qed.

Lemma commit_failure_witness :
  let s := uploadOnSuccess an_evening [bakery_file] idle in
  enabled s ClickVerifyAndSave = true
  /\ enabled (verifyOnError (handle ClickVerifyAndSave s)) ClickVerifyAndSave = true.
Proof.
  intros s. split; [reflexivity|].
  apply (commit_failure_keeps_the_draft s). reflexivity.
Defined.

(** Retrying needs a confirm control.  For an error draft that got its
    items in edit mode, the failed commit leaves the modal read-only with
    Edit and Verify & Save disabled: the draft is kept, but the user can
    only cancel. *)
Example error_draft_cannot_be_retried :
  let s := exec [User ClickEditAndAddItems; User ClickAddItem;
                 User ClickSaveChangesAndVerify; CommitFailed]
             (uploadOnSuccess an_evening
                [obj [("ocrData", obj [("ocrStatus", VStr "error")])]] idle) in
  items_of (editedData s) = [newItem]
  /\ verifyModalOpen s = true
  /\ (forall e, enabled s e = true -> e = ClickCancel).
Proof.
  split; [reflexivity|]. split; [reflexivity|].
  intros e He. destruct e; try (vm_compute in He; discriminate). reflexivity.
Qed.

(** **** C6 *)

(** Claim C6, as amended.  For every batch upload, the verification modal
    is shown for at most one draft: the draft of the first uploaded file,
    when that file carries OCR data.  The later files of the batch have no
    part in what is staged (they only count in the number of uploaded
    receipts); whatever the user does and however a commit ends, the
    staged draft stays that first draft until it is dropped, and once the
    first draft is confirmed or cancelled the modal is closed with nothing
    staged. *)
Theorem only_the_first_draft_is_staged
    (now : Z) (first : value) (rest : list value) (s : page) :
  let s' := uploadOnSuccess now (first :: rest) s in
  pendingOCRData s' =
    (if hasOcrData first then Some (normalize now first (get first "ocrData"))
     else pendingOCRData s)
  /\ (forall rest',
        pendingOCRData (uploadOnSuccess now (first :: rest') s) = pendingOCRData s'
        /\ editedData (uploadOnSuccess now (first :: rest') s) = editedData s')
  /\ (forall tr,
        pendingOCRData (exec tr s') = pendingOCRData s'
        \/ pendingOCRData (exec tr s') = None)
  /\ pendingOCRData (handleCancelVerify s') = None
  /\ verifyModalOpen (handleCancelVerify s') = false
  /\ pendingOCRData (verifyOnSuccess s') = None
  /\ verifyModalOpen (verifyOnSuccess s') = false.
Proof.
  intros s'. split_and!; try done.
  - unfold s', uploadOnSuccess. destruct (hasOcrData first) eqn:E.
    + by rewrite (hasOcrData_in_operand _ E).
    + by destruct (in_operand first).
  - intros rest'. unfold s', uploadOnSuccess.
    by destruct (in_operand first), (hasOcrData first).
  - intros tr. apply pending_after_trace.
Qed.

(** The claim as stated fails on a batch of two files that both carry OCR
    data: the draft of the second is never staged, whatever happens after
    the upload, although both count as processed. *)
Lemma second_draft_counterexample :
  hasOcrData bakery_file = true
  /\ uploadedCount (uploadOnSuccess an_evening [cafe_file; bakery_file] idle) = 2%nat
  /\ (forall tr,
        pendingOCRData
          (exec tr (uploadOnSuccess an_evening [cafe_file; bakery_file] idle))
        <> Some (normalize an_evening bakery_file bakery_ocr)).
Proof.
  split; [reflexivity|]. split; [reflexivity|]. intros tr H.
  destruct (pending_after_trace tr
              (uploadOnSuccess an_evening [cafe_file; bakery_file] idle)) as [E|E];
    rewrite E in H; [|discriminate].
  apply (f_equal (fun p => get (default VUndef p) "storeName")) in H.
  vm_compute in H. discriminate.
Qed.

(** **** C7 *)

(** Claim C7, as amended.  For every confirmed draft, the record submitted
    to the persistence endpoint is the staged draft as the modal holds it,
    with nothing stripped.  The draft the Normalizer stages has the fields
    ocrStatus and ocrMessage, and no edit removes a field, so the commit
    payload includes them. *)
Theorem commit_payload_is_the_staged_draft (s : page) :
  posted (handleConfirm s) = posted s ++ [editedData s]
  /\ posted (handle ClickVerifyAndSave s) = posted s ++ [editedData s]
  /\ posted (handle ClickSaveChangesAndVerify s) = posted s ++ [editedData s]
  /\ (forall now first rest,
        hasOcrData first = true ->
        has (editedData (uploadOnSuccess now (first :: rest) s)) "ocrStatus" = true
        /\ has (editedData (uploadOnSuccess now (first :: rest) s)) "ocrMessage"
           = true)
  /\ (forall e k,
        e <> ClickCancel ->
        has (editedData s) k = true -> has (data s) k = true ->
        has (editedData (handle e s)) k = true).
Proof.
  split_and!; try done.
  - intros now first rest H.
    destruct (upload_success_stages now first rest s H) as (_ & -> & _).
    split; apply normalize_has.
  - intros e k. apply has_after_event.
Qed.

(** The claim as stated fails on its scenario: the body posted for the
    unedited Cafe X draft carries ocrStatus and ocrMessage. *)
Lemma commit_payload_counterexample :
  enabled (uploadOnSuccess an_evening [cafe_file] idle) ClickVerifyAndSave = true
  /\ exists body,
       posted (handle ClickVerifyAndSave
                 (uploadOnSuccess an_evening [cafe_file] idle)) = [body]
       /\ get body "ocrStatus" = VStr "success"
       /\ has body "ocrMessage" = true.
Proof.
  split; [reflexivity|].
  exists (normalize an_evening cafe_file cafe_ocr).
  split; [reflexivity|]. split; vm_compute; reflexivity.
Qed.

End Commit.

(* ===================================================================== *)
(** ** Cache invalidation *)
(* ===================================================================== *)

Section Invalidation.

Lemma invalidateQueries_lookup k c i q :
  c !! i = Some q ->
  invalidateQueries k c !! i
  = Some (if bool_decide (k `prefix_of` queryKey q) then invalidate q else q).
Proof.
  intros H. unfold invalidateQueries.
  change (map ?f ?l) with (f <$> l). by rewrite list_lookup_fmap, H.
Qed.

(** One invalidation, seen from one cached query. *)
Lemma invalidateQueries_effect k c i q :
  c !! i = Some q ->
  exists q', invalidateQueries k c !! i = Some q'
    /\ queryKey q' = queryKey q
    /\ (k `prefix_of` queryKey q -> isInvalidated q' = true)
    /\ (~ k `prefix_of` queryKey q -> q' = q)
    /\ (isInvalidated q = true -> isInvalidated q' = true).
Proof.
  intros H. eexists. split; [by apply invalidateQueries_lookup|].
  case_bool_decide; simpl; split_and!; done.
Qed.

Lemma analytics_key_is_not_matched q k :
  head (queryKey q) = Some "analytics" ->
  k = "receipts" \/ k = "receipt-stats" ->
  ~ [k] `prefix_of` queryKey q.
Proof.
  intros Hq Hk [l Hl]. rewrite Hl in Hq. simpl in Hq.
  destruct Hk as [-> | ->]; discriminate.
Qed.

(** **** C8 *)

(** Claim C8, as amended.  After a successful commit of a confirmed draft
    the cached receipt lists and the cached receipt statistics (the
    queries whose key begins with "receipts" or with "receipt-stats") are
    invalidated; after a successful update or delete of a persisted
    receipt the cached receipt lists (key beginning with "receipts") are
    invalidated.  None of the three touches the cached analytics (merchant
    rankings, trend series: key beginning with "analytics"). *)
Theorem persistence_invalidates_receipt_queries (i : nat) (q : query) :
  (forall s : Upload.page,
     Upload.cache s !! i = Some q ->
     exists q', Upload.cache (verifyOnSuccess s) !! i = Some q'
       /\ queryKey q' = queryKey q
       /\ (["receipts"] `prefix_of` queryKey q
           \/ ["receipt-stats"] `prefix_of` queryKey q ->
           isInvalidated q' = true)
       /\ (head (queryKey q) = Some "analytics" -> q' = q))
  /\ (forall s : Receipts.page,
        Receipts.cache s !! i = Some q ->
        exists q', Receipts.cache (Receipts.updateOnSuccess s) !! i = Some q'
          /\ queryKey q' = queryKey q
          /\ (["receipts"] `prefix_of` queryKey q -> isInvalidated q' = true)
          /\ (head (queryKey q) = Some "analytics" -> q' = q))
  /\ (forall s : Receipts.page,
        Receipts.cache s !! i = Some q ->
        exists q', Receipts.cache (Receipts.deleteOnSuccess s) !! i = Some q'
          /\ queryKey q' = queryKey q
          /\ (["receipts"] `prefix_of` queryKey q -> isInvalidated q' = true)
          /\ (head (queryKey q) = Some "analytics" -> q' = q)).
Proof.
  split_and!.
  - intros s H. simpl.
    destruct (invalidateQueries_effect ["receipts"] _ _ _ H)
      as (q1 & H1 & K1 & M1 & N1 & _).
    destruct (invalidateQueries_effect ["receipt-stats"] _ _ _ H1)
      as (q2 & H2 & K2 & M2 & N2 & P2).
    exists q2. split; [done|]. split; [congruence|]. split.
    + intros [Hr|Hs]; [apply P2, M1, Hr | apply M2; by rewrite K1].
    + intros Ha. rewrite N2, N1; [done|..].
      * apply analytics_key_is_not_matched; auto.
      * rewrite K1. apply analytics_key_is_not_matched; auto.
  - intros s H. simpl.
    destruct (invalidateQueries_effect ["receipts"] _ _ _ H)
      as (q1 & H1 & K1 & M1 & N1 & _).
    exists q1. split_and!; try done.
    intros Ha. apply N1, analytics_key_is_not_matched; auto.
  - intros s H. simpl.
    destruct (invalidateQueries_effect ["receipts"] _ _ _ H)
      as (q1 & H1 & K1 & M1 & N1 & _).
    exists q1. split_and!; try done.
    intros Ha. apply N1, analytics_key_is_not_matched; auto.
Qed.

Lemma persistence_invalidation_witness :
  Upload.cache idle !! 1%nat
    = Some {| queryKey := ["receipt-stats"; "month"]; isInvalidated := false |}
  /\ exists q', Upload.cache (verifyOnSuccess idle) !! 1%nat = Some q'
       /\ queryKey q' = ["receipt-stats"; "month"]
       /\ isInvalidated q' = true.
Proof.
  split; [reflexivity|].
  destruct (persistence_invalidates_receipt_queries 1
              {| queryKey := ["receipt-stats"; "month"]; isInvalidated := false |})
    as (H & _).
  destruct (H idle eq_refl) as (q' & Hq' & Hk & Hi & _).
  exists q'. split; [exact Hq'|]. split; [exact Hk|].
  apply Hi. right. exists ["month"]. reflexivity.
Defined.

(** The claim as stated fails: an aggregate view, the analytics of the
    Dashboard, is in the cache and not invalidated after a successful
    commit, nor after a successful update or delete. *)
Lemma analytics_stay_cached_counterexample :
  Spec.aggregate_view {| queryKey := ["analytics"; "month"]; isInvalidated := false |}
  = true
  /\ {| queryKey := ["analytics"; "month"]; isInvalidated := false |}
     ∈ Upload.cache (verifyOnSuccess (handleConfirm
                       (uploadOnSuccess an_evening [cafe_file] idle)))
  /\ {| queryKey := ["analytics"; "month"]; isInvalidated := false |}
     ∈ Receipts.cache
         (Receipts.updateOnSuccess
            {| Receipts.cache := a_cache; Receipts.toasts := [];
               Receipts.isModalOpen := true |})
  /\ {| queryKey := ["analytics"; "month"]; isInvalidated := false |}
     ∈ Receipts.cache
         (Receipts.deleteOnSuccess
            {| Receipts.cache := a_cache; Receipts.toasts := [];
               Receipts.isModalOpen := true |}).
Proof.
  split; [reflexivity|].
  split_and!; apply (list_elem_of_lookup_2 _ 2%nat); reflexivity.
Qed.

End Invalidation.

(* ===================================================================== *)
(** ** The Upload page: what every reachable state satisfies *)
(* ===================================================================== *)

Section Reachable.

Ltac hide_defaults :=
  repeat match goal with
         | |- context [js_or ?a ?b] => generalize (js_or a b); intro
         end.

Lemma normalize_complete now firstFile ocrData :
  complete (normalize now firstFile ocrData).
Proof.
  unfold complete, draft_keys, normalize. generalize (today now). intros t.
  hide_defaults. repeat (apply Forall_cons_2; [reflexivity|]). constructor.
Qed.

Lemma complete_set v k x : complete v -> complete (set v k x).
Proof.
  unfold complete. intros H. eapply Forall_impl; [exact H|].
  intros k' Hk. by apply has_set_keeps.
Qed.

Lemma edit_only_edits e s :
  is_edit e = true ->
  handle e s = setEditedData (fun _ => editedData (handle e s)) s.
Proof. destruct e; try discriminate; reflexivity. Qed.

Lemma edit_keeps_complete e s :
  is_edit e = true -> complete (editedData s) ->
  complete (editedData (handle e s)).
Proof.
  destruct e; try discriminate; intros _ H; simpl; by apply complete_set.
Qed.


Lemma consistent_transition s s' : transition s s' -> consistent s -> consistent s'.
Proof.
  intros Ht (Hopen & Hnone & Hsome & Hposted & Hpend).
  assert (Hclosed : is_Some (None : option value) -> False) by (by intros [? ?]).
  destruct Ht as [s fs|s i|s|s|s fs _|s now up|s|s e He|s Hp|s Hp].
  - done.
  - done.
  - done.
  - unfold handleUpload. by destruct (length (files s) =? 0)%nat.
  - done.
  - unfold uploadOnSuccess. destruct up as [|first rest]; [done|].
    destruct (in_operand first); [|done]. simpl negb. cbv iota.
    destruct (hasOcrData first); [|done].
    split_and!; simpl; try done.
    intros d [= <-]. split; apply normalize_complete.
  - done.
  - assert (Hd : is_Some (pendingOCRData s)).
    { apply Hopen. unfold enabled in He. by apply andb_prop in He as [? _]. }
    destruct Hd as [d Hd]. destruct (Hsome d Hd) as [Hcd Hce].
    assert (Hbody : Forall complete (posted s ++ [editedData s])).
    { apply Forall_app. split; [done | by constructor]. }
    assert (Hne : posted s ++ [editedData s] <> []) by (by destruct (posted s)).
    destruct (is_edit e) eqn:Hedit.
    { rewrite (edit_only_edits e s Hedit).
      split_and!; simpl; try done; try (intros; congruence).
      intros d' Hd'. split; [by apply Hsome | by apply edit_keeps_complete]. }
    destruct e; try discriminate; simpl;
      split_and!; simpl; try done; try (intros; congruence).
    intros d' Hd'. rewrite Hd in Hd'. injection Hd' as <-.
    unfold data. by rewrite Hd.
  - split_and!; simpl; done.
  - done.
Qed.

Lemma reachable_consistent c s : reachable c s -> consistent s.
Proof.
  induction 1 as [|s s' _ IH Ht].
  - split_and!; simpl; done.
  - by eapply consistent_transition.
Qed.

(** In every reachable state the modal is open exactly when a draft is
    staged, and while it is closed the modal holds the placeholder. *)
Theorem modal_open_iff_draft_staged (c : list query) (s : page) :
  reachable c s ->
  (verifyModalOpen s = true <-> is_Some (pendingOCRData s))
  /\ (verifyModalOpen s = false -> editedData s = placeholder).
Proof.
  intros Hr. destruct (reachable_consistent c s Hr) as (Hopen & Hnone & _).
  split; [done|]. intros Hclosed. apply Hnone.
  destruct (pendingOCRData s) eqn:E; [|done].
  assert (verifyModalOpen s = true) by (apply Hopen; eauto). congruence.
Qed.

Lemma reachable_after_confirm :
  reachable a_cache
    (handle ClickVerifyAndSave (uploadOnSuccess an_evening [cafe_file] (initial a_cache))).
Proof.
  eapply reachable_step; [eapply reachable_step; [apply reachable_initial|]|].
  - apply t_uploaded.
  - apply t_user. reflexivity.
Defined.

Lemma modal_open_iff_draft_staged_witness :
  verifyModalOpen
    (handle ClickVerifyAndSave (uploadOnSuccess an_evening [cafe_file] (initial a_cache)))
  = true
  <-> is_Some
        (pendingOCRData
           (handle ClickVerifyAndSave
              (uploadOnSuccess an_evening [cafe_file] (initial a_cache)))).
Proof.
  exact (proj1 (modal_open_iff_draft_staged _ _ reachable_after_confirm)).
Defined.

(** Every body ever posted to the persistence endpoint has all the fields
    of a normalized draft, and a commit is in flight only after a post. *)
Theorem posted_bodies_are_complete_drafts (c : list query) (s : page) :
  reachable c s ->
  Forall complete (posted s) /\ (verifyPending s = true -> posted s <> []).
Proof.
  intros Hr. by destruct (reachable_consistent c s Hr) as (_ & _ & _ & Hp & Hv).
Qed.

Lemma posted_bodies_witness :
  Forall complete
    (posted (handle ClickVerifyAndSave
               (uploadOnSuccess an_evening [cafe_file] (initial a_cache)))).
Proof.
  exact (proj1 (posted_bodies_are_complete_drafts _ _ reachable_after_confirm)).
Defined.

End Reachable.

(* ===================================================================== *)
(** ** The Upload page: frames of the transitions and of the user events *)
(* ===================================================================== *)

Section Frames.

Lemma invalidateReceiptQueries_lookup c i q :
  c !! i = Some q ->
  exists q', invalidateReceiptQueries c !! i = Some q'
    /\ queryKey q' = queryKey q
    /\ (receipt_query q = false -> q' = q)
    /\ (q' = q \/ q' = invalidate q).
Proof.
  intros H. unfold invalidateReceiptQueries, receipt_query.
  eexists. split.
  { erewrite invalidateQueries_lookup; [done|].
    by erewrite invalidateQueries_lookup. }
  repeat case_bool_decide; simpl in *; split_and!; try done; auto.
Qed.

Lemma transition_cache s s' :
  transition s s' ->
  Upload.cache s' = Upload.cache s
  \/ Upload.cache s' = invalidateReceiptQueries (Upload.cache s).
Proof.
  intros Ht.
  destruct Ht as [s fs|s i|s|s|s fs _|s now up|s|s e He|s Hp|s Hp];
    try (by left).
  - left. unfold handleUpload. by destruct (length (files s) =? 0)%nat.
  - unfold uploadOnSuccess. destruct up as [|first rest]; [by left|].
    destruct (in_operand first); [|by left]. simpl negb. cbv iota.
    destruct (hasOcrData first); [by left | by right].
  - left. by destruct e.
  - by right.
Qed.

(** No step of the Upload page adds, drops, moves or re-keys a query of
    the cache.  A step either leaves the cache as it is or makes the two
    invalidations, of the receipt lists and of the receipt statistics: a
    query under any other key is left as it is, and no step of the page
    takes a mark away. *)
Theorem upload_step_marks_only_receipt_queries (s s' : page) :
  transition s s' ->
  (Upload.cache s' = Upload.cache s
   \/ Upload.cache s' = invalidateReceiptQueries (Upload.cache s))
  /\ length (Upload.cache s') = length (Upload.cache s)
  /\ (forall i q, Upload.cache s !! i = Some q ->
        exists q', Upload.cache s' !! i = Some q'
          /\ queryKey q' = queryKey q
          /\ (receipt_query q = false -> q' = q)
          /\ (q' = q \/ q' = invalidate q)).
Proof.
  intros Ht. pose proof (transition_cache s s' Ht) as Hc.
  split; [done|]. destruct Hc as [-> | ->].
  - split; [done|]. intros i q Hq. exists q. split_and!; auto.
  - split.
    + unfold invalidateReceiptQueries, invalidateQueries. by rewrite !length_map.
    + intros i q Hq. by apply invalidateReceiptQueries_lookup.
Qed.

Lemma upload_step_witness :
  exists q',
    Upload.cache (uploadOnSuccess an_evening [obj [("id", VStr "r9")]] idle) !! 2%nat
    = Some q'
    /\ (receipt_query {| queryKey := ["analytics"; "month"]; isInvalidated := false |}
        = false ->
        q' = {| queryKey := ["analytics"; "month"]; isInvalidated := false |}).
Proof.
  destruct (upload_step_marks_only_receipt_queries _ _
              (t_uploaded idle an_evening [obj [("id", VStr "r9")]]))
    as (_ & _ & H).
  destruct (H 2%nat {| queryKey := ["analytics"; "month"]; isInvalidated := false |}
              eq_refl) as (q' & Hq' & _ & Hsame & _).
  exists q'. split; [exact Hq' | exact Hsame].
Defined.

(** While a commit is in flight nothing the user can do posts again: the
    confirm controls are disabled, and the commit stays in flight. *)
Theorem no_second_post_while_committing (s : page) (e : event) :
  verifyPending s = true -> enabled s e = true ->
  posted (handle e s) = posted s /\ verifyPending (handle e s) = true.
Proof.
  intros Hp He. unfold enabled in He. rewrite Hp in He.
  destruct e; simpl; try done;
    by destruct (verifyModalOpen s), (editMode s).
Qed.

Lemma no_second_post_witness :
  posted (handle ClickCancel
            (handle ClickVerifyAndSave
               (uploadOnSuccess an_evening [cafe_file] (initial a_cache))))
  = posted (handle ClickVerifyAndSave
              (uploadOnSuccess an_evening [cafe_file] (initial a_cache))).
Proof.
  apply (no_second_post_while_committing
           (handle ClickVerifyAndSave
              (uploadOnSuccess an_evening [cafe_file] (initial a_cache)))
           ClickCancel); reflexivity.
Defined.

(** In the read-only view nothing the user can do changes the draft the
    modal holds, short of cancelling. *)
Theorem read_only_view_keeps_the_draft (s : page) (e : event) :
  editMode s = false -> enabled s e = true -> e <> ClickCancel ->
  editedData (handle e s) = editedData s.
Proof.
  intros Hm He Hne. unfold enabled, inRange in He. rewrite Hm in He.
  destruct e; simpl; try done; by destruct (verifyModalOpen s).
Qed.

Lemma read_only_view_witness :
  editedData (handle ClickEdit (uploadOnSuccess an_evening [cafe_file] idle))
  = editedData (uploadOnSuccess an_evening [cafe_file] idle).
Proof.
  apply read_only_view_keeps_the_draft; [reflexivity | reflexivity | discriminate].
Defined.

(** An edit changes the draft the modal holds and nothing else: not the
    staged original, not the selection, not the cache; it posts nothing. *)
Theorem edits_stay_in_the_modal (s : page) (e : event) :
  is_edit e = true ->
  pendingOCRData (handle e s) = pendingOCRData s
  /\ verifyModalOpen (handle e s) = verifyModalOpen s
  /\ editMode (handle e s) = editMode s
  /\ posted (handle e s) = posted s
  /\ verifyPending (handle e s) = verifyPending s
  /\ Upload.cache (handle e s) = Upload.cache s
  /\ files (handle e s) = files s
  /\ uploadedCount (handle e s) = uploadedCount s
  /\ Upload.toasts (handle e s) = Upload.toasts s.
Proof. intros He. rewrite (edit_only_edits e s He). by split_and!. Qed.

Lemma edits_stay_in_the_modal_witness :
  posted (handle (ChangeTotal "12.5") idle) = posted idle.
Proof. apply (edits_stay_in_the_modal idle (ChangeTotal "12.5")). reflexivity. Defined.

Lemma edits_keep_the_original es s :
  forallb is_edit es = true ->
  pendingOCRData (user_events es s) = pendingOCRData s
  /\ editMode (user_events es s) = editMode s.
Proof.
  revert s. induction es as [|e es IH]; intros s He; [done|].
  simpl in He. apply andb_prop in He as [He Hes].
  unfold user_events in *. simpl.
  destruct (IH (handle e s) Hes) as [-> ->].
  by rewrite (edit_only_edits e s He).
Qed.

(** Cancel Edit discards the edits: after any sequence of edits it puts
    the modal back to read-only, holding the staged draft as it was. *)
Theorem cancel_edit_restores_the_draft (es : list event) (s : page) :
  forallb is_edit es = true ->
  editedData (handle ClickCancelEdit (user_events es s)) = data s
  /\ editMode (handle ClickCancelEdit (user_events es s)) = false
  /\ pendingOCRData (handle ClickCancelEdit (user_events es s)) = pendingOCRData s.
Proof.
  intros He. destruct (edits_keep_the_original es s He) as [Hp Hm].
  simpl. unfold data. by rewrite Hp.
Qed.

Lemma cancel_edit_witness :
  editedData
    (handle ClickCancelEdit
       (user_events [ChangeStoreName "Cafe Y"; ClickAddItem; ChangeItemPrice 0 "3"]
          (setEditMode true (uploadOnSuccess an_evening [cafe_file] idle))))
  = normalize an_evening cafe_file cafe_ocr.
Proof.
  apply (cancel_edit_restores_the_draft
           [ChangeStoreName "Cafe Y"; ClickAddItem; ChangeItemPrice 0 "3"]
           (setEditMode true (uploadOnSuccess an_evening [cafe_file] idle))).
  reflexivity.
Defined.

End Frames.

(* ===================================================================== *)
(** ** The handlers of the staging form: frames and edge cases *)
(* ===================================================================== *)

Section Handlers.

Local Open Scope nat_scope.

Lemma delete_beyond {A} (l : list A) i : length l <= i -> delete i l = l.
Proof.
  revert i. induction l as [|x l IH]; intros i Hi; [by destruct i|].
  destruct i as [|i]; simpl in *; [lia|]. f_equal. apply IH. lia.
Qed.

(** [handleItemChange] on a row of the list changes that field of that
    row and nothing else: the list keeps its length, the other rows, the
    other fields of the row and the other fields of the draft stay. *)
Theorem item_change_frame (i : nat) (f : string) (v x d : value) :
  items_of d !! i = Some x ->
  let d' := handleItemChange i f v d in
  length (items_of d') = length (items_of d)
  /\ (forall j, j <> i -> items_of d' !! j = items_of d !! j)
  /\ (exists y, items_of d' !! i = Some y /\ get y f = v
                /\ forall g, g <> f -> get y g = get x g)
  /\ (forall k, k <> "items" -> get d' k = get d k).
Proof.
  intros Hx d'. unfold d'. rewrite (items_after_change _ _ _ _ _ Hx).
  split_and!.
  - apply length_insert.
  - intros j Hj. by apply list_lookup_insert_ne.
  - exists (set x f v). split_and!.
    + apply list_lookup_insert_eq. by eapply lookup_lt_Some.
    + apply get_set_eq.
    + intros g Hg. by apply get_set_ne.
  - intros k Hk. unfold handleItemChange. by apply get_set_ne.
Qed.

Lemma item_change_frame_witness :
  items_of (handleItemChange 1 "price" (num 18) bakery_ocr) !! 0 = Some tea.
Proof.
  destruct (item_change_frame 1 "price" (num 18) bun bakery_ocr eq_refl)
    as (_ & H & _).
  rewrite H by discriminate. reflexivity.
Defined.

(** On a draft whose items is an array, [handleItemChange] beyond the end
    of the array does not fail and is not ignored: the array grows up to
    that index; the old rows stay, the new row has the one field, and the
    rows in between are undefined. *)
Theorem item_change_beyond_the_end
    (i : nat) (f : string) (v d : value) (l : list value) :
  get d "items" = VArr l ->
  length l <= i ->
  let d' := handleItemChange i f v d in
  get d' "items" = VArr (l ++ replicate (i - length l) VUndef ++ [obj [(f, v)]])
  /\ length (items_of d') = S i
  /\ (forall j, j < length l -> items_of d' !! j = l !! j)
  /\ items_of d' !! i = Some (obj [(f, v)])
  /\ (forall j, length l <= j < i -> items_of d' !! j = Some VUndef).
Proof.
  intros Hl Hi d'.
  assert (Hd : get d' "items"
               = VArr (l ++ replicate (i - length l) VUndef ++ [obj [(f, v)]])).
  { unfold d', handleItemChange, items_of. rewrite get_set_eq, Hl.
    rewrite (lookup_ge_None_2 _ _ Hi). simpl. unfold array_set.
    by destruct (Nat.ltb_spec i (length l)); [lia|]. }
  split; [done|]. unfold items_of. rewrite Hd. split_and!.
  - rewrite !length_app, length_replicate. simpl. lia.
  - intros j Hj. by rewrite lookup_app_l.
  - rewrite lookup_app_r by done. rewrite lookup_app_r; rewrite length_replicate; [|lia].
    by replace (i - length l - (i - length l)) with 0 by lia.
  - intros j [Hj1 Hj2]. rewrite lookup_app_r by done. rewrite lookup_app_l.
    + apply lookup_replicate_2. lia.
    + rewrite length_replicate. lia.
Qed.

Lemma item_change_beyond_witness :
  length (items_of (handleItemChange 4 "name" (VStr "Jam") bakery_ocr)) = 5.
Proof.
  refine (proj1 (proj2 (item_change_beyond_the_end 4 "name" (VStr "Jam") bakery_ocr
                          [tea; bun] _ _))).
  - reflexivity.
  - vm_compute. lia.
Defined.

(** [handleInputChange] sets its field and no other; a later change of the
    same field wins, and changes of different fields can be swapped. *)
Theorem input_change_frame (f g : string) (v w d : value) :
  get (handleInputChange f v d) f = v
  /\ (g <> f -> get (handleInputChange f v d) g = get d g)
  /\ handleInputChange f w (handleInputChange f v d) = handleInputChange f w d
  /\ (g <> f ->
      handleInputChange f v (handleInputChange g w d)
      = handleInputChange g w (handleInputChange f v d)).
Proof.
  unfold handleInputChange. split_and!.
  - apply get_set_eq.
  - intros H. by apply get_set_ne.
  - unfold set. simpl. by rewrite insert_insert_eq.
  - intros H. unfold set. simpl. f_equal. by apply insert_insert_ne.
Qed.

Lemma input_change_frame_witness :
  get (handleInputChange "date" (VStr "2024-02-02") cafe_ocr) "storeName"
  = VStr "Cafe X".
Proof.
  destruct (input_change_frame "date" "storeName" (VStr "2024-02-02") VUndef cafe_ocr)
    as (_ & H & _).
  rewrite H by discriminate. reflexivity.
Defined.

(** On a draft whose items is an array, [handleAddItem] puts the default
    item last and keeps the rows there were; deleting that last row gives
    the array back; deleting at an index beyond the array changes no
    row. *)
Theorem add_then_delete_last (d : value) (l : list value) (i : nat) :
  get d "items" = VArr l ->
  get (handleAddItem d) "items" = VArr (l ++ [newItem])
  /\ get (handleDeleteItem (length l) (handleAddItem d)) "items" = VArr l
  /\ (length l <= i -> get (handleDeleteItem i d) "items" = VArr l).
Proof.
  intros Hl. assert (Hd : items_of d = l) by (unfold items_of; by rewrite Hl).
  unfold handleAddItem, handleDeleteItem. rewrite !get_set_eq, items_of_set_items, Hd.
  rewrite !js_filter_delete. split_and!.
  - done.
  - replace (length l) with (length l + 0) at 1 by lia.
    rewrite delete_app_r. simpl. by rewrite app_nil_r.
  - intros Hi. by rewrite delete_beyond.
Qed.

Lemma add_then_delete_last_witness :
  get (handleDeleteItem 7 bakery_ocr) "items" = VArr [tea; bun].
Proof.
  destruct (add_then_delete_last bakery_ocr [tea; bun] 7 eq_refl) as (_ & _ & H).
  apply H. vm_compute. lia.
Defined.

End Handlers.

(* ===================================================================== *)
(** ** The Upload page: selection, upload outcome, Normalizer *)
(* ===================================================================== *)

Section UploadPage.

Local Open Scope nat_scope.



(** [handleUpload] never starts an upload of nothing: with an empty
    selection it raises an error toast and calls nothing; otherwise it
    hands over the whole selection, in order, and leaves the page alone. *)
Theorem upload_needs_files (s : page) :
  (files s = [] ->
   handleUpload s = (addToast (Error "Please select files to upload") s, None))
  /\ (files s <> [] -> handleUpload s = (s, Some (files s)))
  /\ (forall fs, snd (handleUpload s) = Some fs -> fs <> [] /\ fs = files s).
Proof.
  unfold handleUpload. destruct (files s) as [|f fs] eqn:E; simpl.
  - split_and!; try done.
  - split_and!; try done. intros ? [= <-]. done.
Qed.

Lemma upload_needs_files_witness :
  handleUpload (initial []) =
    (addToast (Error "Please select files to upload") (initial []), None).
Proof. apply (upload_needs_files (initial [])). reflexivity. Defined.

(** Which first file opens the modal: an object whose [ocrData] is there
    and truthy. *)
Lemma hasOcrData_spec first :
  hasOcrData first = true <->
  exists o v, first = VObj o /\ o !! "ocrData" = Some v /\ truthy v = true.
Proof.
  unfold hasOcrData, has, get. split.
  - destruct first as [| | | | | |o]; try (simpl; rewrite ?andb_false_r; done).
    destruct (o !! "ocrData") as [v|] eqn:E; simpl.
    + eauto.
    + done.
  - intros (o & v & -> & E & Hv). rewrite E. simpl. done.
Qed.

(** An upload that succeeds with a first entry that is an object without
    truthy OCR data (no such field, or a falsy one), or an array, opens no
    modal and stages nothing: it clears the selection, invalidates the
    receipt lists and the receipt statistics and raises a success toast.
    With a first entry that is no object (undefined, null, a boolean, a
    number, a string) the handler throws before it has changed anything,
    and the upload ends as a failed one: an error toast, no invalidation,
    the selection kept.  An upload that returns no file at all changes
    nothing but the uploading flag. *)
Theorem upload_without_ocr_data
    (now : Z) (first : value) (rest : list value) (s : page) :
  let s' := uploadOnSuccess now (first :: rest) s in
  ((exists o, first = VObj o
              /\ ~ exists v, o !! "ocrData" = Some v /\ truthy v = true)
   \/ (exists l, first = VArr l) ->
   verifyModalOpen s' = verifyModalOpen s
   /\ pendingOCRData s' = pendingOCRData s
   /\ editedData s' = editedData s
   /\ posted s' = posted s
   /\ files s' = []
   /\ uploadedCount s' = S (length rest)
   /\ Upload.cache s'
      = invalidateQueries ["receipt-stats"]
          (invalidateQueries ["receipts"] (Upload.cache s))
   /\ Upload.toasts s'
      = Upload.toasts s ++ [Success (count_message (S (length rest)))])
  /\ (in_operand first = false ->
      s' = uploadOnError s
      /\ Upload.toasts s' = Upload.toasts s ++ [Error "Failed to upload receipts"]
      /\ Upload.cache s' = Upload.cache s
      /\ files s' = files s
      /\ uploadedCount s' = uploadedCount s
      /\ verifyModalOpen s' = verifyModalOpen s
      /\ pendingOCRData s' = pendingOCRData s)
  /\ uploadOnSuccess now [] s = setIsUploading false s.
Proof.
  intros s'. split_and!; [| |done].
  - intros Hno.
    assert (H : in_operand first = true /\ hasOcrData first = false).
    { destruct Hno as [(o & -> & Hno) | (l & ->)]; [|done]. split; [done|].
      destruct (hasOcrData (VObj o)) eqn:E; [|done].
      apply hasOcrData_spec in E as (o' & v & [= <-] & Hv). destruct Hno. eauto. }
    destruct H as [Hin Hocr]. unfold s', uploadOnSuccess. rewrite Hin, Hocr.
    by split_and!.
  - intros Hin. unfold s', uploadOnSuccess. rewrite Hin. by split_and!.
Qed.

Lemma upload_without_ocr_data_witness :
  verifyModalOpen
    (uploadOnSuccess an_evening [obj [("id", VStr "r9"); ("ocrData", VNull)]] idle)
  = false.
Proof.
  refine (proj1 (proj1 (upload_without_ocr_data an_evening
                          (obj [("id", VStr "r9"); ("ocrData", VNull)]) [] idle) _)).
  left. eexists. split; [reflexivity|].
  intros (v & Hv & Ht). vm_compute in Hv. injection Hv as <-. discriminate.
Defined.

Lemma js_or_truthy_fields o k d :
  js_or (get (VObj (truthy_fields o)) k) d = js_or (get (VObj o) k) d.
Proof.
  unfold truthy_fields, get.
  destruct (o !! k) as [v|] eqn:E.
  - destruct (truthy v) eqn:Hv.
    + rewrite (proj2 (map_lookup_filter_Some _ o k v)); [done|]. by split.
    + replace (filter (fun kv => truthy kv.2 = true) o !! k) with (@None value).
      * simpl. unfold js_or. simpl. by rewrite Hv.
      * symmetry. apply map_lookup_filter_None. right. intros x Hx. simpl.
        rewrite E in Hx. injection Hx as <-. by rewrite Hv.
  - replace (filter (fun kv => truthy kv.2 = true) o !! k) with (@None value);
      [done|]. symmetry. apply map_lookup_filter_None. by left.
Qed.

(** The Normalizer does not convert: each field of the draft is the
    extracted value as it came, of whatever type, when that is truthy,
    and the default of the field otherwise.  So a falsy field (0, "",
    null, false) counts as a missing one: dropping the falsy fields from
    the extraction result gives the same draft. *)
Theorem normalizer_keeps_or_defaults
    (now : Z) (firstFile : value) (o : gmap string value) (k : string) :
  k ∈ draft_keys ->
  get (normalize now firstFile (VObj o)) k
  = (if truthy (source_of firstFile (VObj o) k) then source_of firstFile (VObj o) k
     else default_of now k)
  /\ normalize now firstFile (VObj (truthy_fields o)) = normalize now firstFile (VObj o).
Proof.
  intros Hk. split.
  - destruct (normalize_get now firstFile (VObj o))
      as (H1 & H2 & H3 & H4 & H5 & H6 & H7 & H8 & H9).
    unfold draft_keys in Hk.
    repeat (apply elem_of_cons in Hk as [->|Hk]);
      [..|by apply elem_of_nil in Hk];
      unfold source_of, default_of;
      repeat match goal with
             | |- context [String.eqb ?a ?b] =>
                 let r := eval vm_compute in (String.eqb a b) in
                 change (String.eqb a b) with r
             end;
      cbv iota; simpl orb; cbv iota.
    + exact H1.
    + exact H2.
    + exact H3.
    + exact H4.
    + exact H5.
    + exact H6.
    + exact H7.
    + exact H8.
    + exact H9.
  - unfold normalize. by rewrite !js_or_truthy_fields.
Qed.

Lemma normalizer_keeps_witness :
  get (normalize an_evening cafe_file
         (obj [("totalAmount", VStr "12,50"); ("taxAmount", VBool false)]))
      "totalAmount" = VStr "12,50".
Proof.
  refine (eq_trans (proj1 (normalizer_keeps_or_defaults an_evening cafe_file
                             (list_to_map [("totalAmount", VStr "12,50");
                                           ("taxAmount", VBool false)])
                             "totalAmount" _)) _).
  - unfold draft_keys. set_solver.
  - reflexivity.
Defined.

(** The default date is the one of the current UTC day: it is the same
    all through a UTC day, whatever the time. *)
Theorem default_date_is_per_utc_day (now now' : Z) :
  (now / 86400000 = now' / 86400000)%Z -> today now = today now'.
Proof.
  intros H. rewrite !today_is_utc_date. unfold utc_date. by rewrite H.
Qed.

Lemma default_date_witness : today an_evening = today (an_evening + 3600000).
Proof. apply default_date_is_per_utc_day. reflexivity. Defined.

End UploadPage.

(* ===================================================================== *)
(** ** The client receipt store: how the actions compose *)
(* ===================================================================== *)

Section StoreLaws.

Import receiptStore StoreActions.

Lemma filter_all {A} (f : A -> bool) (l : list A) :
  Forall (fun x => f x = true) l -> List.filter f l = l.
Proof. induction 1 as [|x l Hx _ IH]; simpl; [done|]. by rewrite Hx, IH. Qed.

Lemma id_is_merge id r u :
  spread u !! "id" = None -> id_is id (merge r u) = id_is id r.
Proof.
  intros Hu. unfold id_is, merge, get. rewrite lookup_union_r by done.
  by destruct r.
Qed.

(** Adding a receipt and deleting its id gives the store back, provided no
    receipt of the store had that id; the receipt added is the first. *)
Theorem add_then_delete_receipt (id : string) (r : value) (st : store) :
  id_is id r = true ->
  Forall (fun x => id_is id x = false) (receipts st) ->
  deleteReceipt id (addReceipt r st) = st
  /\ receipts (addReceipt r st) !! 0%nat = Some r.
Proof.
  intros Hr Hst. split; [|done].
  destruct st as [rs sel fl up pr].
  unfold deleteReceipt, addReceipt, set_receipts. simpl in *. rewrite Hr. simpl.
  f_equal. apply filter_all.
  eapply Forall_impl; [exact Hst|]. intros x Hx. simpl in Hx. by rewrite Hx.
Qed.

Lemma add_then_delete_receipt_witness :
  deleteReceipt "r2"
    (addReceipt failed_file
       {| receipts := [cafe_file; bakery_file]; selectedReceipt := None;
          filters := obj []; isUploading := false; uploadProgress := 0 |})
  = {| receipts := [cafe_file; bakery_file]; selectedReceipt := None;
       filters := obj []; isUploading := false; uploadProgress := 0 |}.
Proof.
  apply add_then_delete_receipt; [reflexivity|].
  repeat constructor.
Defined.

(** Two updates of the same id amount to one update with the merged
    fields, as long as the first does not itself set an id; so repeating
    an update changes nothing. *)
Theorem update_twice_is_update_merged (id : string) (u1 u2 : value) (st : store) :
  spread u1 !! "id" = None ->
  updateReceipt id u2 (updateReceipt id u1 st) = updateReceipt id (merge u1 u2) st
  /\ updateReceipt id u1 (updateReceipt id u1 st) = updateReceipt id u1 st.
Proof.
  intros Hu.
  assert (H : forall u, updateReceipt id u (updateReceipt id u1 st)
                        = updateReceipt id (merge u1 u) st).
  { intros u. destruct st as [rs sel fl up pr].
    unfold updateReceipt, set_receipts. simpl. f_equal. rewrite map_map.
    apply map_ext. intros r. destruct (id_is id r) eqn:Hr.
    - rewrite id_is_merge, Hr by done. unfold merge. simpl.
      f_equal. apply (assoc_L (∪)).
    - by rewrite Hr. }
  split; [apply H|]. rewrite H. unfold updateReceipt. f_equal.
  apply map_ext. intros r. destruct (id_is id r); [|done].
  unfold merge. simpl. f_equal. by rewrite (idemp_L (∪) (spread u1)).
Qed.

Lemma update_twice_witness :
  updateReceipt "r1" (obj [("notes", VStr "b")])
    (updateReceipt "r1" (obj [("notes", VStr "a"); ("tags", VArr [])])
       {| receipts := [cafe_file]; selectedReceipt := None; filters := obj [];
          isUploading := false; uploadProgress := 0 |})
  = updateReceipt "r1" (obj [("notes", VStr "b"); ("tags", VArr [])])
      {| receipts := [cafe_file]; selectedReceipt := None; filters := obj [];
         isUploading := false; uploadProgress := 0 |}.
Proof.
  refine (eq_trans (proj1 (update_twice_is_update_merged "r1"
                             (obj [("notes", VStr "a"); ("tags", VArr [])])
                             (obj [("notes", VStr "b")]) _ _)) _);
    [reflexivity|]. vm_compute. reflexivity.
Defined.

(** Deleting an id twice is deleting it once, deletions can be swapped,
    and an update that sets no id, followed by the deletion of that id,
    is just the deletion. *)
Theorem delete_receipt_laws (a b : string) (u : value) (st : store) :
  deleteReceipt a (deleteReceipt a st) = deleteReceipt a st
  /\ deleteReceipt a (deleteReceipt b st) = deleteReceipt b (deleteReceipt a st)
  /\ (spread u !! "id" = None ->
      deleteReceipt a (updateReceipt a u st) = deleteReceipt a st).
Proof.
  destruct st as [rs sel fl up pr].
  unfold deleteReceipt, updateReceipt, set_receipts. simpl. split_and!.
  - f_equal. induction rs as [|r l IH]; simpl; [done|].
    destruct (id_is a r) eqn:E; simpl; [done|]. by rewrite E, IH.
  - f_equal. induction rs as [|r l IH]; simpl; [done|].
    destruct (id_is a r) eqn:Ea, (id_is b r) eqn:Eb; simpl;
      rewrite ?Ea, ?Eb; simpl; by rewrite IH.
  - intros Hu. f_equal. induction rs as [|r l IH]; simpl; [done|].
    destruct (id_is a r) eqn:E.
    + by rewrite id_is_merge, E by done.
    + rewrite E. simpl. by rewrite IH.
Qed.

Lemma delete_receipt_laws_witness :
  receipts
    (deleteReceipt "r1"
       (updateReceipt "r1" (obj [("notes", VStr "paid")])
          {| receipts := [cafe_file; bakery_file]; selectedReceipt := None;
             filters := obj []; isUploading := false; uploadProgress := 0 |}))
  = [bakery_file].
Proof.
  destruct (delete_receipt_laws "r1" "r1" (obj [("notes", VStr "paid")])
              {| receipts := [cafe_file; bakery_file]; selectedReceipt := None;
                 filters := obj []; isUploading := false; uploadProgress := 0 |})
    as (_ & _ & H).
  rewrite H; reflexivity.
Defined.

(** An update that sets no id leaves the ids of the store as they are, in
    order, and an update with no field at all leaves the store as it is. *)
Theorem update_keeps_ids (id : string) (u : value) (st : store) :
  spread u !! "id" = None ->
  ids (updateReceipt id u st) = ids st
  /\ updateReceipt id (obj []) st = st.
Proof.
  intros Hu. split.
  - unfold ids, updateReceipt. simpl. rewrite map_map. apply map_ext.
    intros r. destruct (id_is id r); [|done].
    unfold merge, get. rewrite lookup_union_r by done. unfold id_is in *.
    by destruct r.
  - destruct st as [rs sel fl up pr]. unfold updateReceipt, set_receipts. simpl.
    f_equal. rewrite <- (map_id rs) at 2. apply map_ext. intros r.
    unfold id_is, merge, obj. destruct r; try done. simpl.
    destruct (default VUndef (o !! "id")); try done.
    destruct (String.eqb s id); [|done]. by rewrite (left_id_L ∅ (∪)).
Qed.

Lemma update_keeps_ids_witness :
  ids (updateReceipt "r1" (obj [("notes", VStr "paid")])
         {| receipts := [cafe_file; bakery_file]; selectedReceipt := None;
            filters := obj []; isUploading := false; uploadProgress := 0 |})
  = [VStr "r1"; VStr "r3"].
Proof.
  refine (eq_trans (proj1 (update_keeps_ids "r1" (obj [("notes", VStr "paid")]) _ _)) _);
    reflexivity.
Defined.

End StoreLaws.

(* ===================================================================== *)
(** ** The receipt detail modal *)
(* ===================================================================== *)

Section Detail.

Import DetailModal.

Lemma detail_items_of r : ReceiptDetailModal.items_of (Some r) = items_of r.
Proof.
  unfold ReceiptDetailModal.items_of, items_of, js_or.
  destruct (get r "items") as [| |b|n|t|l|o]; simpl; try done.
  - by destruct b.
  - by destruct (number_truthy n).
  - by destruct (negb (String.eqb t "")).
Qed.

Lemma detail_item_change i f v r :
  ReceiptDetailModal.handleItemChange i f v (Some r) = Some (handleItemChange i f v r).
Proof.
  unfold ReceiptDetailModal.handleItemChange, handleItemChange.
  by rewrite detail_items_of.
Qed.

(** On a receipt whose items is an array, the handlers of the detail
    modal do exactly what the handlers of the verification modal do to a
    staged draft; so does [handleInputChange] on any receipt.  Unlike the
    verification modal, the detail modal reads [items || []]: a receipt
    without items is edited as one with no item.  A null state stays
    null. *)
Theorem detail_handlers_agree_with_staging
    (i : nat) (f : string) (v r : value) :
  ReceiptDetailModal.handleInputChange f v (Some r) = Some (handleInputChange f v r)
  /\ (forall l, get r "items" = VArr l ->
        ReceiptDetailModal.items_of (Some r) = l
        /\ ReceiptDetailModal.handleItemChange i f v (Some r)
           = Some (handleItemChange i f v r)
        /\ ReceiptDetailModal.handleDeleteItem i (Some r)
           = Some (handleDeleteItem i r))
  /\ (truthy (get r "items") = false ->
      ReceiptDetailModal.items_of (Some r) = []
      /\ ReceiptDetailModal.handleDeleteItem i (Some r)
         = Some (set r "items" (VArr []))
      /\ ReceiptDetailModal.handleItemChange i f v (Some r)
         = Some (set r "items" (VArr (replicate i VUndef ++ [obj [(f, v)]]))))
  /\ ReceiptDetailModal.handleInputChange f v None = None
  /\ ReceiptDetailModal.handleItemChange i f v None = None
  /\ ReceiptDetailModal.handleDeleteItem i None = None.
Proof.
  split_and!; try done.
  - intros l Hl. split_and!.
    + unfold ReceiptDetailModal.items_of, js_or. by rewrite Hl.
    + apply detail_item_change.
    + unfold ReceiptDetailModal.handleDeleteItem, handleDeleteItem.
      by rewrite detail_items_of.
  - intros Hf.
    assert (Hit : ReceiptDetailModal.items_of (Some r) = []).
    { unfold ReceiptDetailModal.items_of, js_or. by rewrite Hf. }
    unfold ReceiptDetailModal.handleDeleteItem, ReceiptDetailModal.handleItemChange.
    rewrite Hit. split_and!; try done. simpl. unfold array_set. simpl.
    by rewrite Nat.sub_0_r.
Qed.

Lemma detail_handlers_witness :
  ReceiptDetailModal.handleDeleteItem 0 (Some bakery_ocr)
  = Some (handleDeleteItem 0 bakery_ocr).
Proof.
  destruct (detail_handlers_agree_with_staging 0 "name" VUndef bakery_ocr)
    as (_ & H & _).
  destruct (H [tea; bun] eq_refl) as (_ & _ & Hd). exact Hd.
Defined.

(** Editing a persisted receipt does not coerce: for text that does not
    parse as a number, each of the five numeric inputs stores NaN. *)
Theorem detail_modal_stores_unparsed_as_NaN
    (text : string) (r x : value) (i : nat) :
  parseFloat text = NaN ->
  items_of r !! i = Some x ->
  get (default VUndef (ReceiptDetailModal.changeTotalAmount text (Some r)))
      "totalAmount" = VNum NaN
  /\ get (default VUndef (ReceiptDetailModal.changeTaxAmount text (Some r)))
         "taxAmount" = VNum NaN
  /\ ReceiptDetailModal.items_of (ReceiptDetailModal.changeItemQuantity i text (Some r)) !! i
     = Some (set x "quantity" (VNum NaN))
  /\ ReceiptDetailModal.items_of (ReceiptDetailModal.changeItemPrice i text (Some r)) !! i
     = Some (set x "price" (VNum NaN))
  /\ ReceiptDetailModal.items_of (ReceiptDetailModal.changeItemTotal i text (Some r)) !! i
     = Some (set x "total" (VNum NaN)).
Proof.
  intros Hnan Hx.
  assert (Hitem : forall f,
    ReceiptDetailModal.items_of
      (ReceiptDetailModal.handleItemChange i f (VNum NaN) (Some r)) !! i
    = Some (set x f (VNum NaN))).
  { intros f. rewrite detail_item_change, detail_items_of.
    rewrite (items_after_change _ _ _ _ _ Hx).
    apply list_lookup_insert_eq. by eapply lookup_lt_Some. }
  unfold ReceiptDetailModal.changeTotalAmount, ReceiptDetailModal.changeTaxAmount,
    ReceiptDetailModal.changeItemQuantity, ReceiptDetailModal.changeItemPrice,
    ReceiptDetailModal.changeItemTotal.
  rewrite Hnan. split_and!; try apply Hitem.
  - apply get_set_eq.
  - apply get_set_eq.
Qed.

Lemma detail_modal_NaN_witness :
  get (default VUndef (ReceiptDetailModal.changeTotalAmount "abc" (Some bakery_ocr)))
      "totalAmount" = VNum NaN.
Proof.
  refine (proj1 (detail_modal_stores_unparsed_as_NaN "abc" bakery_ocr tea 0 _ _));
    reflexivity.
Defined.

(** Cancel in the detail modal hides the edits without discarding them:
    the read-only view shows the receipt as passed in, but the edits are
    still held, come back on the next Edit, and are what Save then sends;
    only a change of the receipt passed in resets them. *)
Theorem detail_cancel_keeps_the_edits
    (f : option value -> option value) (er : value) (res : outcome) (m : modal) :
  f (editedReceipt m) = Some er ->
  let cancelled := setEditMode false (setEditedReceipt f (setEditMode true m)) in
  displayReceipt cancelled = receipt m
  /\ displayReceipt (setEditMode true cancelled) = Some er
  /\ snd (handleSave true res (setEditMode true cancelled)) = [OnSave er]
  /\ (forall r, displayReceipt (setEditMode true (receiptChanged r cancelled)) = r).
Proof.
  intros Hf. simpl. unfold handleSave. simpl. rewrite Hf. by split_and!.
Qed.

Lemma detail_cancel_witness :
  displayReceipt
    (setEditMode true
       (setEditMode false
          (setEditedReceipt (ReceiptDetailModal.changeTotalAmount "99")
             (setEditMode true
                {| receipt := Some bakery_ocr; editMode := false;
                   editedReceipt := Some bakery_ocr; isSaving := false;
                   isDeleting := false; showDeleteConfirm := false |}))))
  = Some (set bakery_ocr "totalAmount" (num 99)).
Proof.
  refine (proj1 (proj2 (detail_cancel_keeps_the_edits
                          (ReceiptDetailModal.changeTotalAmount "99")
                          (set bakery_ocr "totalAmount" (num 99)) Resolved _ _))).
  reflexivity.
Defined.

(** A save that fails keeps the modal in edit mode with the edits; a save
    that succeeds leaves edit mode; either way the saving flag is cleared
    and exactly the edited receipt was passed on.  A delete that fails
    keeps the confirmation open and does not close the modal; a delete
    that succeeds closes both.  Without the callback nothing happens. *)
Theorem detail_save_and_delete_outcomes (er r : value) (res : outcome) (m : modal) :
  editedReceipt m = Some er ->
  receipt m = Some r ->
  handleSave true Rejected m = (setIsSaving false m, [OnSave er])
  /\ handleSave true Resolved m
     = (setEditMode false (setIsSaving false m), [OnSave er])
  /\ handleSave false res m = (m, [])
  /\ handleConfirmDelete true Rejected m
     = (setIsDeleting false m, [OnDelete (get r "id")])
  /\ handleConfirmDelete true Resolved m
     = (setShowDeleteConfirm false (setIsDeleting false m),
        [OnDelete (get r "id"); OnClose])
  /\ handleConfirmDelete false res m = (m, []).
Proof.
  intros He Hr. unfold handleSave, handleConfirmDelete. rewrite He, Hr.
  by split_and!.
Qed.

Lemma detail_save_witness :
  handleSave true Rejected
    {| receipt := Some bakery_ocr; editMode := true;
       editedReceipt := Some cafe_ocr; isSaving := false;
       isDeleting := false; showDeleteConfirm := false |}
  = ({| receipt := Some bakery_ocr; editMode := true;
        editedReceipt := Some cafe_ocr; isSaving := false;
        isDeleting := false; showDeleteConfirm := false |}, [OnSave cafe_ocr]).
Proof.
  refine (proj1 (detail_save_and_delete_outcomes cafe_ocr bakery_ocr Resolved _ _ _));
    reflexivity.
Defined.

End Detail.

(* ===================================================================== *)
(** ** The receipt API *)
(* ===================================================================== *)

Section ApiShapes.

Import Api.

(** [getReceipts] takes both shapes of the response: a bare array, and an
    object with the array under [receipts].  It fails exactly on a null or
    undefined body, and what it returns is never null or undefined.
    [uploadBatch] returns the array under [uploaded], and the empty array
    when that field is missing or falsy. *)
Theorem api_unwraps_both_shapes (data : value) (l : list value) :
  (data = VArr l -> getReceipts data = Some (VArr l))
  /\ (get data "receipts" = VArr l -> getReceipts data = Some (VArr l))
  /\ (getReceipts data = None <-> nullish data = true)
  /\ (forall v, getReceipts data = Some v -> nullish v = false)
  /\ (get data "uploaded" = VArr l -> uploadBatch data = Some (VArr l))
  /\ (nullish data = false -> truthy (get data "uploaded") = false ->
      uploadBatch data = Some (VArr []))
  /\ (forall v, uploadBatch data = Some v -> nullish v = false).
Proof.
  unfold getReceipts, uploadBatch, prop. split_and!.
  - by intros ->.
  - intros H. assert (Hn : nullish data = false) by (by destruct data).
    rewrite Hn. simpl. by rewrite H.
  - destruct (nullish data); simpl; split; done.
  - intros v. destruct (nullish data) eqn:Hn; simpl; [done|]. intros [= <-].
    unfold js_or. destruct (truthy (get data "receipts")) eqn:H1; simpl.
    + rewrite H1. by destruct (get data "receipts").
    + destruct (truthy data) eqn:H2; [|done]. by destruct data.
  - intros H. assert (Hn : nullish data = false) by (by destruct data).
    rewrite Hn. simpl. by rewrite H.
  - intros Hn Hf. rewrite Hn. simpl. unfold js_or. by rewrite Hf.
  - intros v. destruct (nullish data); simpl; [done|]. intros [= <-].
    unfold js_or. destruct (truthy (get data "uploaded")) eqn:H1; [|done].
    by destruct (get data "uploaded").
Qed.

Lemma api_unwraps_witness :
  getReceipts (obj [("receipts", VArr [cafe_file])]) = Some (VArr [cafe_file]).
Proof.
  apply (api_unwraps_both_shapes (obj [("receipts", VArr [cafe_file])]) [cafe_file]).
  reflexivity.
Defined.

End ApiShapes.

(* ===================================================================== *)
(** ** The Receipts page: search and category filter *)
(* ===================================================================== *)

Section FilterLaws.

Import ReceiptsFilter.

Variable toLowerCase : string -> string.
Variable trim : string -> string.

Local Abbreviation shown := (shown toLowerCase trim).
Local Abbreviation filteredReceipts := (filteredReceipts toLowerCase trim).
Local Abbreviation matchesSearch := (matchesSearch toLowerCase).
Local Abbreviation matchesCategory := (matchesCategory toLowerCase trim).

Lemma filter_of_sublist p l r :
  filter_of p l = Some r -> r `sublist_of` l /\ Forall (fun x => p x = Some true) r.
Proof.
  revert r. induction l as [|x l IH]; intros r; simpl.
  - intros [= <-]. split; constructor.
  - destruct (p x) as [b|] eqn:Hx; [|done].
    destruct (filter_of p l) as [r'|]; [|done]. intros [= <-].
    destruct (IH r' eq_refl) as [Hs Hf].
    destruct b; split; try done; by constructor.
Qed.

Lemma filter_of_all p l :
  Forall (fun x => p x = Some true) l -> filter_of p l = Some l.
Proof. induction 1 as [|x l Hx _ IH]; simpl; [done|]. by rewrite Hx, IH. Qed.

Lemma shown_true q cat r :
  shown q cat r = Some true ->
  matchesSearch q r = Some true /\ matchesCategory cat r = Some true.
Proof.
  unfold ReceiptsFilter.shown.
  destruct (matchesSearch q r) as [ms|]; [|done]. simpl.
  destruct (matchesCategory cat r) as [mc|]; [|done]. simpl.
  destruct (debugLine cat r); [|done]. simpl.
  intros [= H]. by apply andb_prop in H as [-> ->].
Qed.

Lemma shown_under_All q cat r b :
  shown q cat r = Some b -> exists b', shown q "All" r = Some b' /\ (b = true -> b' = true).
Proof.
  unfold ReceiptsFilter.shown.
  destruct (matchesSearch q r) as [ms|]; [|done]. simpl.
  destruct (matchesCategory cat r) as [mc|]; [|done]. simpl.
  destruct (debugLine cat r); [|done]. simpl.
  intros [= <-]. exists ms. split; [by rewrite andb_true_r|].
  by intros [-> _]%andb_prop.
Qed.

(** With an empty search and the category All the page shows every
    receipt, in order, whatever the receipts look like: nothing of a
    receipt is read. *)
Theorem default_view_shows_every_receipt (receipts : list value) :
  filteredReceipts "" "All" receipts = Some receipts.
Proof. apply filter_of_all. apply Forall_forall. by intros r _. Qed.

(** What the filter shows is a part of the receipts, in their order, each
    one matching both the search and the category; under a category other
    than All a receipt without items is never shown. *)
Theorem filter_narrows_in_order (q cat : string) (receipts l : list value) :
  filteredReceipts q cat receipts = Some l ->
  l `sublist_of` receipts
  /\ Forall (fun r => matchesSearch q r = Some true
                      /\ matchesCategory cat r = Some true) l
  /\ (cat <> "All" ->
      Forall (fun r => exists items, get r "items" = VArr items /\ items <> []) l).
Proof.
  intros H. apply filter_of_sublist in H as [Hs Hf]. split; [done|].
  split.
  - eapply Forall_impl; [exact Hf|]. intros r. apply shown_true.
  - intros Hcat. eapply Forall_impl; [exact Hf|]. intros r Hr.
    apply shown_true in Hr as [_ Hc]. unfold ReceiptsFilter.matchesCategory in Hc.
    rewrite (proj2 (String.eqb_neq cat "All") Hcat) in Hc.
    destruct (Api.prop r "items") as [it|] eqn:Hit; [|done]. simpl in Hc.
    unfold Api.prop in Hit. destruct (Api.nullish r); [done|].
    injection Hit as <-. destruct (get r "items") as [| | | | |items|]; try done.
    exists items. split; [done|]. by intros ->.
Qed.

Lemma filter_of_under p p' l r :
  (forall x b, p x = Some b -> exists b', p' x = Some b' /\ (b = true -> b' = true)) ->
  filter_of p l = Some r ->
  exists r', filter_of p' l = Some r' /\ r `sublist_of` r'.
Proof.
  intros Hp. revert r. induction l as [|x l IH]; intros r; simpl.
  - intros [= <-]. by exists [].
  - destruct (p x) as [b|] eqn:Hx; [|done].
    destruct (filter_of p l) as [r0|]; [|done]. intros [= <-].
    destruct (Hp x b Hx) as (b' & -> & Hb). destruct (IH r0 eq_refl) as (r' & -> & Hs).
    eexists. split; [done|].
    destruct b; [rewrite Hb by done; by constructor|].
    destruct b'; [by constructor | done].
Qed.

(** Choosing a category only hides receipts: whatever is shown under a
    category is shown, in the same order, under All with the same search,
    and the view under All does not fail when the one under the category
    does not. *)
Theorem category_only_hides (q cat : string) (receipts l : list value) :
  filteredReceipts q cat receipts = Some l ->
  exists l', filteredReceipts q "All" receipts = Some l' /\ l `sublist_of` l'.
Proof. apply filter_of_under. intros r b. apply shown_under_All. Qed.

(** The search does not look at the case of the query beyond what
    [toLowerCase] keeps: two non-empty queries with the same lower-case
    form give the same view. *)
Theorem search_ignores_query_case (q q' cat : string) (receipts : list value) :
  q <> "" -> q' <> "" -> toLowerCase q = toLowerCase q' ->
  filteredReceipts q cat receipts = filteredReceipts q' cat receipts.
Proof.
  intros Hq Hq' Hl. unfold ReceiptsFilter.filteredReceipts. f_equal.
  unfold ReceiptsFilter.shown, ReceiptsFilter.matchesSearch.
  apply String.eqb_neq in Hq, Hq'. by rewrite Hq, Hq', Hl.
Qed.

Lemma some_of_total p l :
  Forall (fun x => is_Some (p x)) l -> is_Some (some_of p l).
Proof.
  induction 1 as [|x l [b Hx] _ IH]; simpl; [eauto|].
  rewrite Hx. destruct b; eauto.
Qed.

Lemma typed_item_not_nullish l :
  forallb item_typed l = true -> forallb (fun i => negb (Api.nullish i)) l = true.
Proof.
  induction l as [|x l IH]; simpl; [done|]. intros [Hx Hl]%andb_prop.
  rewrite IH by done. by destruct x.
Qed.

Lemma prop_obj o k : Api.prop (VObj o) k = Some (get (VObj o) k).
Proof. reflexivity. Qed.

Lemma typed_items_names q items :
  forallb item_typed items = true ->
  is_Some (some_of
             (fun item => nm ← Api.prop item "name"; nm ← lower toLowerCase nm;
                          Some (includes nm (toLowerCase q))) items).
Proof.
  intros Hr. apply some_of_total. apply Forall_forall. intros x Hx.
  apply list_elem_of_In in Hx.
  pose proof (proj1 (forallb_forall _ _) Hr x Hx) as Hi.
  unfold item_typed in Hi. destruct x as [| | | | | |ox]; try done.
  rewrite prop_obj.
  destruct (get (VObj ox) "name");
    first [done | cbn [mbind option_bind lower]; eauto].
Qed.

Lemma typed_items_categories cat items :
  forallb item_typed items = true ->
  is_Some (some_of
             (fun item => c ← Api.prop item "category";
                match js_or c (VStr "Other") with
                | VStr c' => Some (String.eqb (toLowerCase (trim c'))
                                              (toLowerCase (trim cat)))
                | _ => None
                end) items).
Proof.
  intros Hr. apply some_of_total. apply Forall_forall. intros x Hx.
  apply list_elem_of_In in Hx.
  pose proof (proj1 (forallb_forall _ _) Hr x Hx) as Hi.
  unfold item_typed in Hi. destruct x as [| | | | | |ox]; try done.
  rewrite prop_obj. cbn [mbind option_bind].
  destruct (get (VObj ox) "name"); try done.
  destruct (js_or (get (VObj ox) "category") (VStr "Other"));
    first [done | eauto].
Qed.

Lemma typed_receipt_shown q cat r :
  receipt_typed r = true -> is_Some (shown q cat r).
Proof.
  unfold receipt_typed. destruct r as [| | | | | |o]; try done.
  destruct (get (VObj o) "storeName") as [| | | |sn| |] eqn:Hsn; try done.
  destruct (get (VObj o) "items") as [| | | | |items|] eqn:Hit; try done.
  intros Hr.
  assert (Hs : is_Some (matchesSearch q (VObj o))).
  { unfold ReceiptsFilter.matchesSearch. destruct (String.eqb q ""); [eauto|].
    rewrite !prop_obj, Hsn. cbn [mbind option_bind lower].
    destruct (includes (toLowerCase sn) (toLowerCase q)); [eauto|].
    rewrite Hit. cbn [mbind option_bind ReceiptsFilter.some].
    by apply typed_items_names. }
  assert (Hc : is_Some (matchesCategory cat (VObj o))).
  { unfold ReceiptsFilter.matchesCategory. destruct (String.eqb cat "All"); [eauto|].
    rewrite prop_obj, Hit. cbn [mbind option_bind ReceiptsFilter.some].
    by apply typed_items_categories. }
  assert (Hd : is_Some (debugLine cat (VObj o))).
  { unfold debugLine. destruct (String.eqb cat "All"); [eauto|].
    rewrite prop_obj, Hit. cbn [mbind option_bind].
    rewrite (typed_item_not_nullish items Hr). eauto. }
  unfold ReceiptsFilter.shown.
  destruct Hs as [ms ->], Hc as [mc ->], Hd as [u ->].
  cbn [mbind option_bind]. eauto.
Qed.

(** On receipts of the declared shape (a store name that is a string,
    items that are objects with a string name and a category that is a
    string or missing) the filter does not fail, whatever the search and
    the category. *)
Theorem filter_total_on_typed_receipts (q cat : string) (receipts : list value) :
  forallb receipt_typed receipts = true ->
  is_Some (filteredReceipts q cat receipts).
Proof.
  intros Ht. unfold ReceiptsFilter.filteredReceipts.
  induction receipts as [|r l IH]; simpl; [eauto|].
  simpl in Ht. apply andb_prop in Ht as [Hr Hl].
  destruct (IH Hl) as [rest ->].
  destruct (typed_receipt_shown q cat r Hr) as [b ->]. eauto.
Qed.

End FilterLaws.

Lemma filter_narrows_witness :
  [bakery_ocr] `sublist_of` [cafe_ocr; bakery_ocr].
Proof.
  refine (proj1 (filter_narrows_in_order ReceiptsFilter.lower_ascii (fun t => t)
                   "tea" "Other" [cafe_ocr; bakery_ocr] [bakery_ocr] _)).
  vm_compute. reflexivity.
Defined.

Lemma category_only_hides_witness :
  exists l',
    ReceiptsFilter.filteredReceipts ReceiptsFilter.lower_ascii (fun t => t)
      "" "All" [cafe_ocr; bakery_ocr] = Some l'
    /\ [bakery_ocr] `sublist_of` l'.
Proof.
  apply (category_only_hides ReceiptsFilter.lower_ascii (fun t => t)
           "" "Other" [cafe_ocr; bakery_ocr] [bakery_ocr]).
  vm_compute. reflexivity.
Defined.

Lemma search_ignores_query_case_witness :
  ReceiptsFilter.filteredReceipts ReceiptsFilter.lower_ascii (fun t => t)
    "TEA" "All" [cafe_ocr; bakery_ocr]
  = ReceiptsFilter.filteredReceipts ReceiptsFilter.lower_ascii (fun t => t)
      "tea" "All" [cafe_ocr; bakery_ocr].
Proof.
  apply search_ignores_query_case; [discriminate | discriminate | reflexivity].
Defined.

Lemma filter_total_witness :
  is_Some (ReceiptsFilter.filteredReceipts ReceiptsFilter.lower_ascii (fun t => t)
             "bun" "Groceries" [cafe_ocr; bakery_ocr]).
Proof. apply filter_total_on_typed_receipts. reflexivity. Defined.
